(** * The hybrid phishing scorer of [ml-detector.js]

    A shallow embedding of the class [PhishingMLDetector]: the local
    pattern scorer ([getEnhancedFallbackScore]), the reason generator
    ([generateReasons]), the normalisation of a remote model's answer
    ([parseMLResult]), the remote call with model fail-over
    ([getMLPrediction]) and the entry point ([analyzeEmail]).

    Conventions of the embedding.
    - A JavaScript number is an IEEE 754 binary64 value: Rocq's primitive
      [float].  The pattern score, which only ever holds small integers,
      is kept in [Z] and injected with [Z2F] where it meets a float.
    - A JavaScript string is a [string] of 8-bit characters, so the text
      domain is ASCII: [toLowerCase] acts on [A-Z] and the line
      terminators of a regular expression are LF and CR.
    - A thrown exception is a [Throw] completion; [try]/[catch] is a match
      on the completion.
    - A value is a JSON value or [undefined].  The conversions of the
      language are embedded on the values where they are immediate; a run
      that needs another one ends in the completion [Outside].
    - The network is an oracle from the requests issued so far and the
      current request to the outcome of [fetch].
    - The detector is shared by the calls in flight: what the other calls
      do to [currentModelIndex] while a call is suspended is an oracle too
      ([Interference]); [getMLPrediction] and [analyzeEmail] are the calls
      with no other call in flight. *)

From Stdlib Require Import ZArith Lia List String Ascii Bool Arith.
From Stdlib Require Import Floats.PrimFloat Floats.SpecFloat Floats.FloatOps.
From Stdlib Require Import Numbers.Cyclic.Int63.Uint63.
From Stdlib Require Import DecimalString.
Import ListNotations.

Set Implicit Arguments.

Local Open Scope string_scope.
Local Open Scope list_scope.
Local Open Scope Z_scope.

(* ================================================================== *)
(** ** Completions: values and thrown exceptions *)

Inductive Exn : Type :=
| TypeError                      (* property of null, call of a non-function *)
| SyntaxError                    (* [response.json()] on a malformed body *)
| FetchFailed                    (* [fetch] rejected: no response at all *)
| Error (message : string).      (* [new Error(message)] *)

(** [Outside] marks a run that reaches a builtin on an argument the
    embedding does not cover (the conversion of an array to a string, of a
    string to a number, ...).  It is neither a value nor an exception, and
    no [catch] intercepts it. *)
Inductive Completion (A : Type) : Type :=
| Normal (a : A)
| Throw (e : Exn)
| Outside.

Arguments Normal {A} a.
Arguments Throw {A} e.
Arguments Outside {A}.

Definition bindC {A B} (c : Completion A) (k : A -> Completion B) : Completion B :=
  match c with
  | Normal a => k a
  | Throw e => Throw e
  | Outside => Outside
  end.

Declare Scope js_scope.
Delimit Scope js_scope with js.
Notation "x <- c ;; k" := (bindC c (fun x => k))
  (at level 61, c at next level, right associativity) : js_scope.
Notation "' pat <- c ;; k" := (bindC c (fun x => match x with pat => k end))
  (at level 61, pat pattern, c at next level, right associativity) : js_scope.

(* ================================================================== *)
(** ** Strings *)

Module Str.

Definition isUpper (c : ascii) : bool :=
  let n := nat_of_ascii c in (Nat.leb 65 n && Nat.leb n 90)%bool.
Definition isLower (c : ascii) : bool :=
  let n := nat_of_ascii c in (Nat.leb 97 n && Nat.leb n 122)%bool.
Definition isDigit (c : ascii) : bool :=
  let n := nat_of_ascii c in (Nat.leb 48 n && Nat.leb n 57)%bool.

Definition lowerChar (c : ascii) : ascii :=
  if isUpper c then ascii_of_nat (nat_of_ascii c + 32) else c.
Definition upperChar (c : ascii) : ascii :=
  if isLower c then ascii_of_nat (nat_of_ascii c - 32) else c.

(** [s.toLowerCase()] *)
Fixpoint toLowerCase (s : string) : string :=
  match s with
  | EmptyString => EmptyString
  | String c s' => String (lowerChar c) (toLowerCase s')
  end.

(** [s.includes(sub)] *)
Fixpoint includes (s sub : string) : bool :=
  (String.prefix sub s ||
   match s with
   | EmptyString => false
   | String _ s' => includes s' sub
   end)%bool.

(** [s.split(sep)] for a one-character separator: the pieces between the
    separators, in order; never empty. *)
Fixpoint split (sep : ascii) (s : string) : list string :=
  match s with
  | EmptyString => [EmptyString]
  | String c s' =>
      if Ascii.eqb c sep then EmptyString :: split sep s'
      else match split sep s' with
           | [] => [String c EmptyString]
           | p :: ps => String c p :: ps
           end
  end.

(** [s.substring(0, n)] *)
Definition substring0 (n : nat) (s : string) : string := String.substring 0 n s.

Definition isEmpty (s : string) : bool :=
  match s with EmptyString => true | _ => false end.

(** Decimal text of a natural number, as in a template literal. *)
Definition ofNat (n : nat) : string := NilZero.string_of_uint (Nat.to_uint n).
Definition ofZ (z : Z) : string :=
  if z <? 0 then "-" ++ ofNat (Z.to_nat (- z)) else ofNat (Z.to_nat z).

End Str.

(* ================================================================== *)
(** ** Regular expressions

    The patterns of the source use literals, [.], one character class,
    alternation, [*] and [+]; none has a back reference or a look-around,
    so whether [s.match(re)] is null is whether some substring of [s]
    belongs to the language of [re].  The matcher works by derivatives. *)

Module Re.

Inductive regex : Type :=
| Empty                               (* no string *)
| Eps                                 (* the empty string *)
| Lit (c : ascii)                     (* a pattern character *)
| Cls (p : ascii -> bool)             (* a character class *)
| Cat (r1 r2 : regex)
| Alt (r1 r2 : regex)
| Star (r : regex).

(** [.] : any character but a line terminator. *)
Definition notLineTerminator (c : ascii) : bool :=
  negb (Ascii.eqb c "010"%char || Ascii.eqb c "013"%char).
Definition Dot : regex := Cls notLineTerminator.
Definition DotStar : regex := Star Dot.
Definition Plus (r : regex) : regex := Cat r (Star r).

(** [[\d,]] *)
Definition digitOrComma (c : ascii) : bool :=
  (Str.isDigit c || Ascii.eqb c ","%char)%bool.

Fixpoint str (s : string) : regex :=
  match s with
  | EmptyString => Eps
  | String c EmptyString => Lit c
  | String c s' => Cat (Lit c) (str s')
  end.

Fixpoint alts (rs : list regex) : regex :=
  match rs with
  | [] => Empty
  | [r] => r
  | r :: rs' => Alt r (alts rs')
  end.

Fixpoint nullable (r : regex) : bool :=
  match r with
  | Empty => false
  | Eps => true
  | Lit _ => false
  | Cls _ => false
  | Cat r1 r2 => nullable r1 && nullable r2
  | Alt r1 r2 => nullable r1 || nullable r2
  | Star _ => true
  end.

(** Comparison of a pattern character with an input character; with the
    [i] flag both are canonicalised (to upper case) first. *)
Definition sameChar (ic : bool) (c x : ascii) : bool :=
  if ic then Ascii.eqb (Str.upperChar c) (Str.upperChar x) else Ascii.eqb c x.

Definition cat (r1 r2 : regex) : regex :=
  match r1, r2 with
  | Empty, _ => Empty
  | _, Empty => Empty
  | Eps, _ => r2
  | _, _ => Cat r1 r2
  end.

Definition alt (r1 r2 : regex) : regex :=
  match r1, r2 with
  | Empty, _ => r2
  | _, Empty => r1
  | _, _ => Alt r1 r2
  end.

Fixpoint deriv (ic : bool) (x : ascii) (r : regex) : regex :=
  match r with
  | Empty => Empty
  | Eps => Empty
  | Lit c => if sameChar ic c x then Eps else Empty
  | Cls p => if p x then Eps else Empty
  | Cat r1 r2 =>
      if nullable r1
      then alt (cat (deriv ic x r1) r2) (deriv ic x r2)
      else cat (deriv ic x r1) r2
  | Alt r1 r2 => alt (deriv ic x r1) (deriv ic x r2)
  | Star r1 => cat (deriv ic x r1) (Star r1)
  end.

(** Some prefix of [s] is in the language of [r]. *)
Fixpoint matchHere (ic : bool) (r : regex) (s : string) : bool :=
  (nullable r ||
   match s with
   | EmptyString => false
   | String x s' => matchHere ic (deriv ic x r) s'
   end)%bool.

(** [s.match(re) !== null] for a regular expression without the [g]
    flag: a match starts at some position of [s]. *)
Fixpoint test (ic : bool) (r : regex) (s : string) : bool :=
  (matchHere ic r s ||
   match s with
   | EmptyString => false
   | String _ s' => test ic r s'
   end)%bool.

End Re.

(* ================================================================== *)
(** ** Values *)

#[local] Set Warnings "-register-all".

Inductive JsVal : Type :=
| JUndefined
| JNull
| JBool (b : bool)
| JNum (x : float)
| JStr (s : string)
| JArr (elems : list JsVal)
| JObj (props : list (string * JsVal)).   (* own properties, distinct keys *)

Module Js.

(** Integers as numbers; exact below 2^53. *)
Definition Z2F (z : Z) : float :=
  if z <? 0 then PrimFloat.opp (PrimFloat.of_uint63 (Uint63.of_Z (- z)))
  else PrimFloat.of_uint63 (Uint63.of_Z z).

(** [a >= b] on numbers. *)
Definition geb (a b : float) : bool := PrimFloat.leb b a.

(** ToBoolean *)
Definition truthy (v : JsVal) : bool :=
  match v with
  | JUndefined | JNull => false
  | JBool b => b
  | JNum x => negb (PrimFloat.is_zero x || PrimFloat.is_nan x)
  | JStr s => negb (Str.isEmpty s)
  | JArr _ | JObj _ => true
  end.

Fixpoint lookup (k : string) (props : list (string * JsVal)) : JsVal :=
  match props with
  | [] => JUndefined
  | (k', v) :: rest => if String.eqb k k' then v else lookup k rest
  end.

(** [v.k] for the keys the program reads ([label], [score], [sender],
    [subject], [snippet]); none of them is defined on the prototype of a
    primitive, of an array or of a plain object. *)
Definition get (v : JsVal) (k : string) : Completion JsVal :=
  match v with
  | JUndefined | JNull => Throw TypeError
  | JObj props => Normal (lookup k props)
  | JBool _ | JNum _ | JStr _ | JArr _ => Normal JUndefined
  end.

(** The receiver of a call of a [String.prototype] method: calling
    [v.match], [v.toLowerCase] or [v.substring] on a value that is not a
    string is a [TypeError] (the property is undefined or, on an object
    built from JSON, not a function). *)
Definition asString (v : JsVal) : Completion string :=
  match v with
  | JStr s => Normal s
  | _ => Throw TypeError
  end.

(** ToString, as applied by a template literal. *)
Definition ToString (v : JsVal) : Completion string :=
  match v with
  | JUndefined => Normal "undefined"
  | JNull => Normal "null"
  | JBool true => Normal "true"
  | JBool false => Normal "false"
  | JStr s => Normal s
  | JNum _ | JArr _ | JObj _ => Outside
  end.

(** ToNumber, as applied by [*] and [-]. *)
Definition ToNumber (v : JsVal) : Completion float :=
  match v with
  | JUndefined => Normal PrimFloat.nan
  | JNull => Normal 0%float
  | JBool true => Normal 1%float
  | JBool false => Normal 0%float
  | JNum x => Normal x
  | JStr _ | JArr _ | JObj _ => Outside
  end.

(** [const { sender = '', subject = '', snippet = '' } = emailData] *)
Definition withDefault (v : JsVal) : JsVal :=
  match v with JUndefined => JStr "" | _ => v end.

Definition destructure (emailData : JsVal) : Completion (JsVal * JsVal * JsVal) :=
  (sender <- get emailData "sender" ;;
   subject <- get emailData "subject" ;;
   snippet <- get emailData "snippet" ;;
   Normal (withDefault sender, withDefault subject, withDefault snippet))%js.

(** [arr.find(pred)] for a predicate that may throw. *)
Fixpoint find {A} (pred : A -> Completion bool) (l : list A) : Completion (option A) :=
  match l with
  | [] => Normal None
  | a :: l' =>
      (b <- pred a ;;
       if b : bool then Normal (Some a) else find pred l')%js
  end.

End Js.

(** The caller's record: every field a string, each of them optional. *)
Record EmailInput : Type := mkEmail {
  sender : option string;
  subject : option string;
  snippet : option string
}.

Definition field (k : string) (o : option string) : list (string * JsVal) :=
  match o with
  | Some s => [(k, JStr s)]
  | None => []
  end.

Definition emailData_of (e : EmailInput) : JsVal :=
  JObj (field "sender" (sender e) ++ field "subject" (subject e) ++ field "snippet" (snippet e)).

Definition orEmpty (o : option string) : string :=
  match o with Some s => s | None => "" end.

(* ================================================================== *)
(** ** The patterns of the rule set *)

Module Pat.
Import Re.

(** [/verify your account|account.*suspended|confirm your identity|unusual activity/] *)
Definition account : regex :=
  alts [str "verify your account";
        Cat (str "account") (Cat DotStar (str "suspended"));
        str "confirm your identity";
        str "unusual activity"].

(** [/urgent action|click.*immediately|suspended unless|will be closed/] *)
Definition urgent : regex :=
  alts [str "urgent action";
        Cat (str "click") (Cat DotStar (str "immediately"));
        str "suspended unless";
        str "will be closed"].

(** [/won|prize|lottery|million|winner/] *)
Definition prize : regex :=
  alts [str "won"; str "prize"; str "lottery"; str "million"; str "winner"].

(** [/\$[\d,]+|payment.*(?:failed|required|update)/] *)
Definition payment : regex :=
  Alt (Cat (Lit "$") (Plus (Cls digitOrComma)))
      (Cat (str "payment")
           (Cat DotStar (alts [str "failed"; str "required"; str "update"]))).

(** [/will be (?:closed|terminated|deleted)|lose access|expire.*soon/] *)
Definition threat : regex :=
  alts [Cat (str "will be ") (alts [str "closed"; str "terminated"; str "deleted"]);
        str "lose access";
        Cat (str "expire") (Cat DotStar (str "soon"))].

(** [/social security|ssn|password|credit card|bank account/] *)
Definition sensitive : regex :=
  alts [str "social security"; str "ssn"; str "password"; str "credit card";
        str "bank account"].

(** [/\.tk|\.ml|\.ga|\.xyz|tempmail|throwaway/i] *)
Definition domain : regex :=
  alts [str ".tk"; str ".ml"; str ".ga"; str ".xyz"; str "tempmail"; str "throwaway"].

(** [/bit\.ly|tinyurl|goo\.gl/] *)
Definition shortener : regex :=
  alts [str "bit.ly"; str "tinyurl"; str "goo.gl"].

(** [/dear (?:customer|user|member)/] *)
Definition greeting : regex :=
  Cat (str "dear ") (alts [str "customer"; str "user"; str "member"]).

(** [/kindly|needful|revert back/] *)
Definition grammar : regex :=
  alts [str "kindly"; str "needful"; str "revert back"].

(** The patterns of [generateReasons]. *)
Definition verify : regex := Alt (str "verify") (str "confirm").
Definition suspended : regex := Alt (str "suspended") (str "locked").
Definition urgency : regex := Alt (str "urgent") (str "immediately").
Definition wonPrize : regex := Alt (str "won") (str "prize").
Definition dollar : regex := Lit "$".
Definition clickHere : regex := str "click here".
(** [/\.tk|\.ml|tempmail/i] *)
Definition domainShort : regex := alts [str ".tk"; str ".ml"; str "tempmail"].
(** [/password|credit card/i] *)
Definition secret : regex := Alt (str "password") (str "credit card").

End Pat.

(* ================================================================== *)
(** ** The pattern scorer *)

Definition brands : list string :=
  ["paypal"; "amazon"; "apple"; "microsoft"; "google"; "bank"].

(** [`${sender} ${subject} ${snippet}`.toLowerCase()] *)
Definition normalizedText (sender subject snippet : JsVal) : Completion string :=
  (s1 <- Js.ToString sender ;;
   s2 <- Js.ToString subject ;;
   s3 <- Js.ToString snippet ;;
   Normal (Str.toLowerCase (s1 ++ " " ++ s2 ++ " " ++ s3)))%js.

(** [sender.split('@')[1] || ''] *)
Definition domainOf (sender : string) : string :=
  match nth_error (Str.split "@" sender) 1 with
  | Some d => d
  | None => ""
  end.

(** The brand rule: [brands.find(b => text.includes(b))], then the test of
    the sender's domain. *)
Definition brandPoints (text sender : string) : Z :=
  match List.find (fun b => Str.includes text b) brands with
  | Some matchedBrand =>
      if Js.truthy (JStr sender) then
        if negb (Str.includes (domainOf sender) matchedBrand) then 30 else 0
      else 0
  | None => 0
  end.

Definition rule (ic : bool) (r : Re.regex) (s : string) (points : Z) : Z :=
  if Re.test ic r s then points else 0.

Definition getEnhancedFallbackScore (emailData : JsVal) : Completion Z :=
  ('(sender, subject, snippet) <- Js.destructure emailData ;;
   text <- normalizedText sender subject snippet ;;
   let score := 0 in
   let score := score + rule false Pat.account text 40 in
   let score := score + rule false Pat.urgent text 35 in
   let score := score + rule false Pat.prize text 35 in
   let score := score + rule false Pat.payment text 30 in
   let score := score + rule false Pat.threat text 30 in
   let score := score + rule false Pat.sensitive text 35 in
   senderStr <- Js.asString sender ;;
   let score := score + rule true Pat.domain senderStr 40 in
   let score := score + rule false Pat.shortener text 20 in
   let score := score + rule false Pat.greeting text 15 in
   let score := score + rule false Pat.grammar text 10 in
   let score := score + brandPoints text senderStr in
   Normal (Z.min score 100))%js.

(* ================================================================== *)
(** ** The reason generator *)

Definition reasonAIPhishing := "🤖 AI detected phishing".
Definition reasonAISuspicious := "🤖 AI flagged suspicious".
Definition reasonAISafe := "🤖 AI verified safe".
Definition reasonPattern := "⚙️ Pattern detection (add API key for AI)".
Definition reasonNoRedFlags := "✓ No red flags".

(** The first reason pushed: it depends on the mode and the score band. *)
Definition modeReason (score : float) (usedML : bool) : string :=
  if usedML then
    if Js.geb score 65 then reasonAIPhishing
    else if Js.geb score 35 then reasonAISuspicious
    else reasonAISafe
  else reasonPattern.

(** [if (s.match(re)) reasons.push(reason)] *)
Definition pushIf (ic : bool) (r : Re.regex) (s : string) (reason : string)
    (reasons : list string) : list string :=
  if Re.test ic r s then reasons ++ [reason] else reasons.

Definition generateReasons (score : float) (emailData : JsVal) (usedML : bool)
    : Completion (list string) :=
  (let reasons := [] in
   '(sender, subject, snippet) <- Js.destructure emailData ;;
   text <- normalizedText sender subject snippet ;;
   let reasons := reasons ++ [modeReason score usedML] in
   let reasons := pushIf false Pat.verify text "🔒 Verification request" reasons in
   let reasons := pushIf false Pat.suspended text "⚠️ Account suspension claim" reasons in
   let reasons := pushIf false Pat.urgency text "⚡ Urgency tactics" reasons in
   let reasons := pushIf false Pat.wonPrize text "🎰 Prize scam" reasons in
   let reasons := pushIf false Pat.dollar text "💰 Money mentioned" reasons in
   let reasons := pushIf false Pat.clickHere text "🔗 Click-bait" reasons in
   senderStr <- Js.asString sender ;;
   let reasons := pushIf true Pat.domainShort senderStr "🚨 Suspicious domain" reasons in
   let reasons := pushIf true Pat.secret text "🔐 Sensitive info request" reasons in
   let reasons :=
     if (Nat.leb (List.length reasons) 1) then reasons ++ [reasonNoRedFlags] else reasons in
   Normal (firstn 5 reasons))%js.

(* ================================================================== *)
(** ** Normalisation of a model's answer *)

Record MLResult : Type := mkMLResult {
  ml_score : float;
  ml_confidence : float;
  ml_label : string
}.

(** The predicate of the first [find]:
    [p.label && (p.label.toLowerCase().includes('spam') || ... || p.label === '1')] *)
Definition isSpamPrediction (p : JsVal) : Completion bool :=
  (label <- Js.get p "label" ;;
   if Js.truthy label then
     l <- Js.asString label ;;
     Normal (Str.includes (Str.toLowerCase l) "spam" ||
             Str.includes (Str.toLowerCase l) "phishing" ||
             String.eqb l "LABEL_1" ||
             String.eqb l "1")%bool
   else Normal false)%js.

(** The predicate of the second [find]. *)
Definition isHamPrediction (p : JsVal) : Completion bool :=
  (label <- Js.get p "label" ;;
   if Js.truthy label then
     l <- Js.asString label ;;
     Normal (Str.includes (Str.toLowerCase l) "ham" ||
             Str.includes (Str.toLowerCase l) "safe" ||
             String.eqb l "LABEL_0" ||
             String.eqb l "0")%bool
   else Normal false)%js.

(** [Array.isArray(result[0]) ? result[0] : result], for a non-empty array. *)
Definition predictionsOf (elems : list JsVal) : list JsVal :=
  match elems with
  | JArr inner :: _ => inner
  | _ => elems
  end.

Definition orUndefined (o : option JsVal) : JsVal :=
  match o with Some v => v | None => JUndefined end.

(** The two assignments of the body: [(isPhishing, confidence)]. *)
Definition classifyPredictions (predictions : list JsVal) : Completion (bool * float) :=
  (spamPred <- Js.find isSpamPrediction predictions ;;
   if Js.truthy (orUndefined spamPred) then
     sc <- Js.get (orUndefined spamPred) "score" ;;
     x <- Js.ToNumber sc ;;
     Normal (true, x * 100)%float
   else
     hamPred <- Js.find isHamPrediction predictions ;;
     if Js.truthy (orUndefined hamPred) then
       sc <- Js.get (orUndefined hamPred) "score" ;;
       x <- Js.ToNumber sc ;;
       Normal (false, (1 - x) * 100)%float
     else Normal (false, 0%float))%js.

Definition parseMLResult (result : JsVal) : Completion MLResult :=
  ('(isPhishing, confidence) <-
      match result with
      | JArr [] => Normal (false, 0%float)
      | JArr elems => classifyPredictions (predictionsOf elems)
      | _ => Normal (false, 0%float)
      end ;;
   let phishingScore := if isPhishing : bool then confidence else (100 - confidence)%float in
   Normal {| ml_score := phishingScore;
             ml_confidence := confidence;
             ml_label := if isPhishing then "PHISHING" else "SAFE" |})%js.

(* ================================================================== *)
(** ** The detector and the network *)

Record Model : Type := mkModel {
  name : string;
  url : string;
  type : string
}.

(** The fields of a [PhishingMLDetector]. *)
Record Detector : Type := mkDetector {
  modelLoaded : bool;
  apiKey : option string;            (* [null] is [None] *)
  models : list Model;
  currentModelIndex : nat
}.

(** The list set by the constructor. *)
Definition configuredModels : list Model :=
  [ {| name := "Email Spam Detector";
       url := "https://api-inference.huggingface.co/models/mshenoda/roberta-spam";
       type := "classification" |};
    {| name := "SMS Phishing Detector";
       url := "https://api-inference.huggingface.co/models/mrm8488/bert-tiny-finetuned-sms-phishing-detection";
       type := "classification" |} ].

(** [new PhishingMLDetector()] *)
Definition newDetector : Detector :=
  {| modelLoaded := false; apiKey := None; models := configuredModels;
     currentModelIndex := 0 |}.

Definition setIndex (d : Detector) (i : nat) : Detector :=
  {| modelLoaded := modelLoaded d; apiKey := apiKey d; models := models d;
     currentModelIndex := i |}.

(** A POST request of [getMLPrediction]. *)
Record Request : Type := mkRequest {
  req_url : string;
  req_authorization : string;
  req_inputs : string;
  req_wait_for_model : bool;
  req_use_cache : bool
}.

(** What [fetch] and then [response.json()] produce. *)
Inductive FetchOutcome : Type :=
| Rejected                                        (* [fetch] itself fails *)
| Response (status : nat) (body : option JsVal).  (* [None]: the body is not JSON *)

(** [response.ok] *)
Definition ok (status : nat) : bool := (Nat.leb 200 status && Nat.leb status 299)%bool.

(** The remote side: the outcome of a request, given the requests issued
    before it. *)
Definition Network : Type := list Request -> Request -> FetchOutcome.

(** [`Bearer ${this.apiKey}`] *)
Definition bearer (key : option string) : string :=
  "Bearer " ++ match key with Some k => k | None => "null" end.

Definition requestFor (d : Detector) (currentModel : Model) (text : string) : Request :=
  {| req_url := url currentModel;
     req_authorization := bearer (apiKey d);
     req_inputs := Str.substring0 500 text;
     req_wait_for_model := true;
     req_use_cache := false |}.

(** The result of a call: its completion, the detector and the log of the
    requests after it. *)
Definition Run (A : Type) : Type := (Completion A * Detector * list Request)%type.

(** The other calls in flight on the same detector.  A call of
    [getMLPrediction] is suspended at [await fetch]; when it resumes,
    [this.currentModelIndex] holds what the calls that ran in the meantime
    left there, and the call reads it again (line 197).  [others log i] is
    that value, given the requests [log] this call has issued, the awaited
    one included, and the index [i] it was suspended with.  The assignment
    of line 197 is the only write to the detector after start-up, so the
    interference bears on the index alone. *)
Definition Interference : Type := list Request -> nat -> nat.

(** No other call in flight: the index is found as it was left. *)
Definition alone : Interference := fun _ i => i.

(** [getMLPrediction] among other calls.  The model and the request are
    taken from the detector before the suspension (lines 176-192); after
    it the index is the shared one.  The function calls itself after a
    410, so the embedding takes fuel, one unit per call, and [None] is its
    exhaustion.  The second suspension, [await response.json()], is
    followed by no access to the detector; the detector returned is the one
    the call saw when it resumed from [fetch]. *)
Fixpoint getMLPredictionShared (fuel : nat) (others : Interference) (net : Network)
    (text : string) (d : Detector) (log : list Request) : option (Run MLResult) :=
  match fuel with
  | O => None
  | S fuel' =>
      match nth_error (models d) (currentModelIndex d) with
      | None => Some (Throw TypeError, d, log)          (* [currentModel.url] *)
      | Some currentModel =>
          let req := requestFor d currentModel text in
          let log' := log ++ [req] in
          let d := setIndex d (others log' (currentModelIndex d)) in
          match net log req with
          | Rejected => Some (Throw FetchFailed, d, log')
          | Response status body =>
              if negb (ok status) then
                if Nat.eqb status 410 then
                  let d' := setIndex d
                              ((currentModelIndex d + 1) mod List.length (models d))%nat in
                  if Nat.eqb (currentModelIndex d') 0
                  then Some (Throw (Error "All models deprecated"), d', log')
                  else getMLPredictionShared fuel' others net text d' log'
                else Some (Throw (Error ("API " ++ Str.ofNat status)%string), d, log')
              else
                match body with
                | None => Some (Throw SyntaxError, d, log')
                | Some result => Some (parseMLResult result, d, log')
                end
          end
      end
  end.

(** [getMLPrediction] with no other call in flight on the detector. *)
Definition getMLPrediction (fuel : nat) (net : Network) (text : string)
    (d : Detector) (log : list Request) : option (Run MLResult) :=
  getMLPredictionShared fuel alone net text d log.

(* ================================================================== *)
(** ** Number formatting *)

Module Num.

(** The integer nearest to [m * 2^e], ties upwards. *)
Definition roundHalfUp (m e : Z) : Z :=
  if 0 <=? e then m * 2 ^ e
  else (2 * m + 2 ^ (- e)) / (2 * 2 ^ (- e)).

(** [Math.round(x)] *)
Definition round (x : float) : float :=
  match Prim2SF x with
  | S754_finite sgn m e =>
      if 0 <=? e then x
      else
        let n := roundHalfUp (if sgn then Z.neg m else Z.pos m) e in
        if n =? 0 then (if sgn then (-0)%float else 0%float) else Js.Z2F n
  | _ => x
  end.

(** [x.toFixed(0)]; from 1e21 on the result is the exponent form of the
    number, which the embedding leaves out. *)
Definition toFixed0 (x : float) : Completion string :=
  match Prim2SF x with
  | S754_nan => Normal "NaN"
  | S754_infinity false => Normal "Infinity"
  | S754_infinity true => Normal "-Infinity"
  | S754_zero _ => Normal "0"
  | S754_finite sgn m e =>
      if (0 <=? e) && (10 ^ 21 <=? Z.pos m * 2 ^ e) then Outside
      else Normal ((if sgn then "-" else "") ++ Str.ofZ (roundHalfUp (Z.pos m) e))%string
  end.

End Num.

(* ================================================================== *)
(** ** The entry point *)

Inductive RiskLevel : Type := low | medium | high.

Record Details : Type := mkDetails {
  mlScore : float;
  mlConfidence : float;
  usedAI : bool
}.

Record Analysis : Type := mkAnalysis {
  score : float;
  riskLevel : RiskLevel;
  confidence : string;
  details : Details;
  reasons : list string
}.

Definition getErrorResult : Analysis :=
  {| score := 50;
     riskLevel := medium;
     confidence := "Unable to analyze";
     details := {| mlScore := 50; mlConfidence := 0; usedAI := false |};
     reasons := ["⚠️ Analysis error"] |}.

(** The chain of tests on [mlScore]: the risk level, the confidence text
    and the icon. *)
Definition assess (mlScore mlConfidence : float) (usedML : bool)
    : RiskLevel * Completion string * string :=
  if Js.geb mlScore 65 then
    (high,
     if usedML
     then (t <- Num.toFixed0 mlConfidence ;; Normal ("🤖 AI: " ++ t ++ "% phishing")%string)%js
     else Normal "🚨 High risk detected",
     "⚠️")
  else if Js.geb mlScore 35 then
    (medium,
     if usedML
     then (t <- Num.toFixed0 mlConfidence ;; Normal ("⚠️ AI: " ++ t ++ "% suspicious")%string)%js
     else Normal "⚠️ Potentially suspicious",
     "⚡")
  else
    (low,
     if usedML
     then (t <- Num.toFixed0 (100 - mlConfidence)%float ;; Normal ("✓ AI: " ++ t ++ "% safe")%string)%js
     else Normal "✓ Appears safe",
     "✓").

Definition riskLevelOf (mlScore : float) : RiskLevel :=
  fst (fst (assess mlScore 0%float false)).

(** [`From: ${sender}\nSubject: ${subject}\n${snippet}`] *)
Definition newline : string := String "010"%char EmptyString.

Definition emailTextOf (sender subject snippet : JsVal) : Completion string :=
  (s1 <- Js.ToString sender ;;
   s2 <- Js.ToString subject ;;
   s3 <- Js.ToString snippet ;;
   Normal ("From: " ++ s1 ++ newline ++ "Subject: " ++ s2 ++ newline ++ s3)%string)%js.

(** The argument of the first [console.log]:
    [subject?.substring(0, 40) || 'No subject'] *)
Definition subjectPreview (subject : JsVal) : Completion string :=
  match subject with
  | JUndefined | JNull => Normal "No subject"
  | _ =>
      (s <- Js.asString subject ;;
       let s40 := Str.substring0 40 s in
       Normal (if Str.isEmpty s40 then "No subject" else s40))%js
  end.

(** [this.modelLoaded && this.apiKey] *)
Definition remoteEnabled (d : Detector) : bool :=
  (modelLoaded d && match apiKey d with Some k => negb (Str.isEmpty k) | None => false end)%bool.

(** The pattern score as the three variables [(mlScore, mlConfidence, usedML)]. *)
Definition fallbackScore (emailData : JsVal) : Completion (float * float * bool) :=
  (s <- getEnhancedFallbackScore emailData ;; Normal (Js.Z2F s, 0%float, false))%js.

(** The choice of the scorer, with the inner [try]/[catch]. *)
Definition chooseScore (fuel : nat) (net : Network) (emailData : JsVal) (emailText : string)
    (d : Detector) (log : list Request) : option (Run (float * float * bool)) :=
  if remoteEnabled d then
    match getMLPrediction fuel net emailText d log with
    | None => None
    | Some (Normal mlResult, d', log') =>
        Some (Normal (ml_score mlResult, ml_confidence mlResult, true), d', log')
    | Some (Throw _, d', log') => Some (fallbackScore emailData, d', log')
    | Some (Outside, d', log') => Some (Outside, d', log')
    end
  else Some (fallbackScore emailData, d, log).

(** The body of the outer [try]. *)
Definition analyzeEmailBody (fuel : nat) (net : Network) (emailData : JsVal)
    (d : Detector) (log : list Request) : option (Run Analysis) :=
  match ('(sender, subject, snippet) <- Js.destructure emailData ;;
         emailText <- emailTextOf sender subject snippet ;;
         _ <- subjectPreview subject ;;
         Normal emailText)%js with
  | Normal emailText =>
      match chooseScore fuel net emailData emailText d log with
      | None => None
      | Some (Normal (mlScore, mlConfidence, usedML), d', log') =>
          let '(riskLevel, confidence, icon) := assess mlScore mlConfidence usedML in
          Some ((confidence <- confidence ;;
                 reasons <- generateReasons mlScore emailData usedML ;;
                 Normal {| score := Num.round mlScore;
                           riskLevel := riskLevel;
                           confidence := confidence;
                           details := {| mlScore := Num.round mlScore;
                                         mlConfidence := Num.round mlConfidence;
                                         usedAI := usedML |};
                           reasons := reasons |})%js, d', log')
      | Some (Throw e, d', log') => Some (Throw e, d', log')
      | Some (Outside, d', log') => Some (Outside, d', log')
      end
  | Throw e => Some (Throw e, d, log)
  | Outside => Some (Outside, d, log)
  end.

(** [analyzeEmail]: the body under the outer [catch]. *)
Definition analyzeEmail (fuel : nat) (net : Network) (emailData : JsVal)
    (d : Detector) (log : list Request) : option (Run Analysis) :=
  match analyzeEmailBody fuel net emailData d log with
  | Some (Throw _, d', log') => Some (Normal getErrorResult, d', log')
  | r => r
  end.

(* ================================================================== *)
(** ** Start-up: the stored key and the probe of the models *)

Definition setKey (d : Detector) (key : option string) : Detector :=
  {| modelLoaded := modelLoaded d; apiKey := key; models := models d;
     currentModelIndex := currentModelIndex d |}.

Definition setLoaded (d : Detector) (loaded : bool) : Detector :=
  {| modelLoaded := loaded; apiKey := apiKey d; models := models d;
     currentModelIndex := currentModelIndex d |}.

(** [loadApiKey]: [this.apiKey = result.huggingface_api_key || null], where
    [stored] is the value the storage holds under the key ([undefined] when
    there is none).  The field [apiKey] of the embedding is a string or
    [null].  The source also stores a truthy value that is not a string (a
    number, an object): [loadModel] then probes the models with that value
    in the header, and after a successful probe, which has moved the index,
    [this.apiKey.substring] throws inside the [try], so that [modelLoaded]
    ends cleared.  The embedding does not follow such a value: the run
    ends in [Outside]. *)
Definition loadApiKey (stored : JsVal) (d : Detector) : Completion Detector :=
  if Js.truthy stored then
    match stored with
    | JStr k => Normal (setKey d (Some k))
    | _ => Outside
    end
  else Normal (setKey d None).

(** The POST request of [testAPIConnection]: a fixed text, and no
    [use_cache] option. *)
Record ProbeRequest : Type := mkProbeRequest {
  probe_url : string;
  probe_authorization : string;
  probe_inputs : string;
  probe_wait_for_model : bool
}.

Definition probeFor (d : Detector) (m : Model) : ProbeRequest :=
  {| probe_url := url m;
     probe_authorization := bearer (apiKey d);
     probe_inputs := "Test message for phishing detection";
     probe_wait_for_model := true |}.

(** The remote side during the probe. *)
Definition ProbeNetwork : Type := list ProbeRequest -> ProbeRequest -> FetchOutcome.

Definition unavailable : Exn :=
  Error "All AI models unavailable. Using pattern detection.".

(** The loop of [testAPIConnection] from index [i] on; [rest] is the part
    of [this.models] from that index, which the loop does not modify.  A
    rejected [fetch] is caught inside the loop, and a status that is not
    2xx, 410 or not, ends the iteration. *)
Fixpoint testModels (net : ProbeNetwork) (d : Detector) (i : nat) (rest : list Model)
    (log : list ProbeRequest) : Completion unit * Detector * list ProbeRequest :=
  match rest with
  | [] => (Throw unavailable, d, log)
  | m :: rest' =>
      let req := probeFor d m in
      let log' := log ++ [req] in
      match net log req with
      | Rejected => testModels net d (S i) rest' log'
      | Response status _ =>
          if ok status then (Normal tt, setIndex d i, log')
          else if Nat.eqb status 410 then testModels net d (S i) rest' log'
          else testModels net d (S i) rest' log'
      end
  end.

Definition testAPIConnection (net : ProbeNetwork) (d : Detector) (log : list ProbeRequest)
    : Completion unit * Detector * list ProbeRequest :=
  testModels net d 0 (models d) log.

(** [!this.apiKey || this.apiKey === ''] *)
Definition keyMissing (d : Detector) : bool :=
  match apiKey d with
  | None => true
  | Some k => (negb (negb (Str.isEmpty k)) || String.eqb k "")%bool
  end.

(** [loadModel]: the key is read, and with a key the models are probed;
    the [catch] around the probe turns its exception into
    [modelLoaded = false].  The two messages logged after the probe read
    [this.models[this.currentModelIndex].name] and
    [this.apiKey.substring(0, 10)]; on a string key and the index the probe
    has set neither fails. *)
Definition loadModel (stored : JsVal) (net : ProbeNetwork) (d : Detector)
    (log : list ProbeRequest) : Completion unit * Detector * list ProbeRequest :=
  match loadApiKey stored d with
  | Normal d1 =>
      if keyMissing d1 then (Normal tt, setLoaded d1 false, log)
      else
        match testAPIConnection net d1 log with
        | (Normal _, d2, log') => (Normal tt, setLoaded d2 true, log')
        | (Throw _, d2, log') => (Normal tt, setLoaded d2 false, log')
        | (Outside, d2, log') => (Outside, d2, log')
        end
  | Throw e => (Throw e, d, log)
  | Outside => (Outside, d, log)
  end.

(* ================================================================== *)
(** ** Vocabulary of the statements *)

(** The caller's fields after the defaults, and the text the rules scan. *)
Definition senderOf (e : EmailInput) : string := orEmpty (sender e).

Definition textOf (e : EmailInput) : string :=
  Str.toLowerCase (orEmpty (sender e) ++ " " ++ orEmpty (subject e) ++ " " ++ orEmpty (snippet e)).

(** The sum of the points of the rules that match, before the clamp. *)
Definition rulePoints (text senderStr : string) : Z :=
  rule false Pat.account text 40 + rule false Pat.urgent text 35 +
  rule false Pat.prize text 35 + rule false Pat.payment text 30 +
  rule false Pat.threat text 30 + rule false Pat.sensitive text 35 +
  rule true Pat.domain senderStr 40 + rule false Pat.shortener text 20 +
  rule false Pat.greeting text 15 + rule false Pat.grammar text 10 +
  brandPoints text senderStr.

(** The content signals of [generateReasons], in the order they are tested. *)
Definition signals (text senderStr : string) : list (bool * Re.regex * string * string) :=
  [ (false, Pat.verify, text, "🔒 Verification request");
    (false, Pat.suspended, text, "⚠️ Account suspension claim");
    (false, Pat.urgency, text, "⚡ Urgency tactics");
    (false, Pat.wonPrize, text, "🎰 Prize scam");
    (false, Pat.dollar, text, "💰 Money mentioned");
    (false, Pat.clickHere, text, "🔗 Click-bait");
    (true, Pat.domainShort, senderStr, "🚨 Suspicious domain");
    (true, Pat.secret, text, "🔐 Sensitive info request") ].

Definition signalReasons (text senderStr : string) : list string :=
  flat_map (fun '(ic, r, s, reason) => if Re.test ic r s then [reason] else [])
           (signals text senderStr).

(** Some content signal matches. *)
Definition signalMatched (e : EmailInput) : bool :=
  existsb (fun '(ic, r, s, _) => Re.test ic r s) (signals (textOf e) (senderOf e)).

Definition modeReasons : list string :=
  [reasonAIPhishing; reasonAISuspicious; reasonAISafe; reasonPattern].

(** The mapping of the specification, on integer scores. *)
Definition riskBand (z : Z) : RiskLevel :=
  if 65 <=? z then high else if 35 <=? z then medium else low.

Definition sameRisk (a b : RiskLevel) : bool :=
  match a, b with
  | low, low | medium, medium | high, high => true
  | _, _ => false
  end.

(** An input on which every rule matches. *)
Definition everyRuleEmail : EmailInput :=
  {| sender := Some "winner@tempmail.xyz";
     subject := Some "Urgent action: verify your account or it will be closed";
     snippet := Some "Dear customer, kindly send your paypal password; payment failed, prize at bit.ly" |}.

(** The list before the truncation: the mode reason, the reasons of the
    signals, and the fixed reason when nothing else was pushed. *)
Definition reasonsBeforeSlice (score : float) (usedML : bool) (text senderStr : string)
    : list string :=
  let reasons := modeReason score usedML :: signalReasons text senderStr in
  if Nat.leb (List.length reasons) 1 then reasons ++ [reasonNoRedFlags] else reasons.

Definition prediction (label : string) (score : float) : JsVal :=
  JObj [("label", JStr label); ("score", JNum score)].

(** Every exception of the normalisation is a [TypeError]. *)
Definition onlyTypeError {A} (c : Completion A) : Prop :=
  forall e, c = Throw e -> e = TypeError.

Definition allDeprecated : Exn := Error "All models deprecated".

(** The requests of a call for [k] models in list order, from the current
    index on: one request per list position. *)
Definition requestsFrom (d : Detector) (text : string) (k : nat) : list Request :=
  map (fun m => requestFor d m text) (firstn k (skipn (currentModelIndex d) (models d))).

(** Every request of [reqs], issued in order after [log], is answered 410. *)
Fixpoint gone (net : Network) (log : list Request) (reqs : list Request) : Prop :=
  match reqs with
  | [] => True
  | r :: rs => (exists body, net log r = Response 410 body) /\ gone net (log ++ [r]) rs
  end.

(** The outcome of the first request of a call, if the call issues one. *)
Definition firstOutcome (net : Network) (text : string) (d : Detector) (log : list Request)
    : option FetchOutcome :=
  match nth_error (models d) (currentModelIndex d) with
  | Some currentModel => Some (net log (requestFor d currentModel text))
  | None => None
  end.



(** The shape of a finished call that started at index [i] with [n] models:
    it issued [k] requests, to the models at positions [i], ..., [i+k-1];
    either all of them were answered 410, [k = n - i] and the call throws
    [allDeprecated] with the index back at 0, or all but the last were
    answered 410 and the index is the position of the last one. *)
Definition callShape (net : Network) (text : string) (d : Detector) (log : list Request)
    (r : Run MLResult) : Prop :=
  let '(c, d', log') := r in
  let i := currentModelIndex d in
  let n := List.length (models d) in
  exists k : nat,
    log' = log ++ requestsFrom d text k /\
    (k <= n - i)%nat /\
    ((i < n)%nat -> (1 <= k)%nat) /\
    models d' = models d /\ apiKey d' = apiKey d /\ modelLoaded d' = modelLoaded d /\
    ((c = Throw allDeprecated /\ k = (n - i)%nat /\
      gone net log (requestsFrom d text k) /\ currentModelIndex d' = 0%nat)
     \/
     (c <> Throw allDeprecated /\
      gone net log (requestsFrom d text (k - 1)) /\
      currentModelIndex d' = (i + (k - 1))%nat)).

(** The exhaustion error as claimed: when a call that starts with an empty
    log throws [allDeprecated], every configured model has been requested. *)
Definition exhaustionTriesAll (net : Network) (text : string) (d : Detector) : Prop :=
  forall fuel d' log',
    getMLPrediction fuel net text d [] = Some (Throw allDeprecated, d', log') ->
    forall m, In m (models d) -> In (requestFor d m text) log'.

(** A detector with a key, routed to the model at index [i]. *)
Definition detectorAt (i : nat) : Detector :=
  {| modelLoaded := true; apiKey := Some "hf_key"; models := configuredModels;
     currentModelIndex := i |}.

(** A network on which every model is gone. *)
Definition allGone : Network := fun _ _ => Response 410 None.

(** A network on which every model answers 503. *)
Definition allBusy : Network := fun _ _ => Response 503 None.

(** The other calls leave the index alone while this call waits. *)
Definition quiet (others : Interference) : Prop :=
  forall (log : list Request) (i : nat), others log i = i.

(** The bound on the requests as claimed, for a call on a detector that
    other calls may share: a finished call has issued at most as many
    requests as there are configured models. *)
Definition oneRequestPerModel : Prop :=
  forall (fuel : nat) (others : Interference) (net : Network) (text : string)
         (d d' : Detector) (log log' : list Request) (c : Completion MLResult),
    getMLPredictionShared fuel others net text d log = Some (c, d', log') ->
    exists reqs : list Request,
      log' = log ++ reqs /\ (List.length reqs <= List.length (models d))%nat.

(** Another call that wraps the index to 0 while this call waits for the
    answer to its second request: that call had read index 1, met a 410
    and stored [(1 + 1) % 2]. *)
Definition anotherCallWraps : Interference :=
  fun log i => match log with [_; _] => 0%nat | _ => i end.

(** Another call that moves the index from 0 to 1 while this call waits
    for the answer to its first request: that call had read index 0 and
    met a 410. *)
Definition anotherCallAdvances : Interference :=
  fun log i => match log with [_] => 1%nat | _ => i end.

(** The two models of [configuredModels]. *)
Definition spamDetector : Model :=
  {| name := "Email Spam Detector";
     url := "https://api-inference.huggingface.co/models/mshenoda/roberta-spam";
     type := "classification" |}.

Definition smsDetector : Model :=
  {| name := "SMS Phishing Detector";
     url := "https://api-inference.huggingface.co/models/mrm8488/bert-tiny-finetuned-sms-phishing-detection";
     type := "classification" |}.

(** The record with [extra] appended to its snippet. *)
Definition appendSnippet (e : EmailInput) (extra : string) : EmailInput :=
  {| sender := sender e; subject := subject e;
     snippet := Some (orEmpty (snippet e) ++ extra)%string |}.

(** The fields of [e'] are those of [e], each followed by some text. *)
Definition extendsEmail (e e' : EmailInput) : Prop :=
  exists a b c : string,
    orEmpty (sender e') = (orEmpty (sender e) ++ a)%string /\
    orEmpty (subject e') = (orEmpty (subject e) ++ b)%string /\
    orEmpty (snippet e') = (orEmpty (snippet e) ++ c)%string.

(** Which rules match, in the order of the source. *)
Definition ruleHits (e : EmailInput) : list bool :=
  [ Re.test false Pat.account (textOf e); Re.test false Pat.urgent (textOf e);
    Re.test false Pat.prize (textOf e); Re.test false Pat.payment (textOf e);
    Re.test false Pat.threat (textOf e); Re.test false Pat.sensitive (textOf e);
    Re.test true Pat.domain (senderOf e); Re.test false Pat.shortener (textOf e);
    Re.test false Pat.greeting (textOf e); Re.test false Pat.grammar (textOf e);
    brandPoints (textOf e) (senderOf e) =? 30 ].

(** Some rule matches on [e'] and not on [e]. *)
Definition additionalRule (e e' : EmailInput) : Prop :=
  exists j : nat, nth j (ruleHits e) false = false /\ nth j (ruleHits e') false = true.

(** The monotonicity as claimed, for every extension of the text. *)
Definition monotoneUnderExtension : Prop :=
  forall (e e' : EmailInput) (v v' : Z),
    extendsEmail e e' -> additionalRule e e' ->
    getEnhancedFallbackScore (emailData_of e) = Normal v ->
    getEnhancedFallbackScore (emailData_of e') = Normal v' ->
    v <= v'.

Definition brandMail : EmailInput :=
  {| sender := Some "alerts@secure-mail.com";
     subject := Some "Your PayPal account";
     snippet := None |}.

Definition brandMailExtended : EmailInput :=
  {| sender := Some "alerts@secure-mail.com.paypal.tinyurl.com";
     subject := Some "Your PayPal account";
     snippet := None |}.

(** The language of a pattern; [ic] is the [i] flag. *)
Inductive Matches (ic : bool) : Re.regex -> string -> Prop :=
| MEps : Matches ic Re.Eps ""
| MLit c x : Re.sameChar ic c x = true -> Matches ic (Re.Lit c) (String x "")
| MCls (p : ascii -> bool) x : p x = true -> Matches ic (Re.Cls p) (String x "")
| MCat r1 r2 s1 s2 :
    Matches ic r1 s1 -> Matches ic r2 s2 -> Matches ic (Re.Cat r1 r2) (s1 ++ s2)
| MAltL r1 r2 s : Matches ic r1 s -> Matches ic (Re.Alt r1 r2) s
| MAltR r1 r2 s : Matches ic r2 s -> Matches ic (Re.Alt r1 r2) s
| MStarNil r : Matches ic (Re.Star r) ""
| MStarApp r s1 s2 :
    Matches ic r s1 -> Matches ic (Re.Star r) s2 -> Matches ic (Re.Star r) (s1 ++ s2).

(** The probe counts an outcome as a success when it is a response with a
    2xx status. *)
Definition isOkOutcome (o : FetchOutcome) : bool :=
  match o with
  | Response status _ => ok status
  | Rejected => false
  end.

(** The probes of the models [ms], in order. *)
Definition probesFor (d : Detector) (ms : list Model) : list ProbeRequest :=
  map (probeFor d) ms.

(** Every probe of [reqs], issued in order after [log], fails. *)
Fixpoint notOk (net : ProbeNetwork) (log : list ProbeRequest) (reqs : list ProbeRequest)
    : Prop :=
  match reqs with
  | [] => True
  | r :: rs => isOkOutcome (net log r) = false /\ notOk net (log ++ [r]) rs
  end.

(** The index designates a configured model. *)
Definition validIndex (d : Detector) : Prop :=
  (currentModelIndex d < List.length (models d))%nat.

(** The text [analyzeEmail] composes for the remote call. *)
Definition emailTextOfInput (e : EmailInput) : string :=
  "From: " ++ orEmpty (sender e) ++ newline ++ "Subject: " ++ orEmpty (subject e)
  ++ newline ++ orEmpty (snippet e).

(** A prediction as the models return it: an object with a string label
    and a numeric score. *)
Definition wellFormedPrediction (p : JsVal) : Prop :=
  exists (props : list (string * JsVal)) (l : string) (s : float),
    p = JObj props /\ Js.lookup "label" props = JStr l /\ Js.lookup "score" props = JNum s.

(** The number of rules that match. *)
Definition hitCount (e : EmailInput) : nat :=
  List.length (filter (fun b : bool => b) (ruleHits e)).

(** The three confidence texts of the mode without a remote model. *)
Definition localConfidenceTexts : list string :=
  ["🚨 High risk detected"; "⚠️ Potentially suspicious"; "✓ Appears safe"].

(** The points of the rules, in the order of [ruleHits]. *)
Definition rulePointsList : list Z := [40; 35; 35; 30; 30; 35; 40; 20; 15; 10; 30].

(** The sum of the points of the rules marked in [hits]. *)
Fixpoint pointsOf (hits : list bool) (points : list Z) : Z :=
  match hits, points with
  | b :: hits', p :: points' => (if b : bool then p else 0) + pointsOf hits' points'
  | _, _ => 0
  end.

Definition countTrue (hits : list bool) : Z :=
  Z.of_nat (List.length (filter (fun b : bool => b) hits)).

(** The relations between the number of matching rules and the clamped
    score, as one boolean test on a vector of hits. *)
Definition bandCheck (hits : list bool) : bool :=
  let v := Z.min (pointsOf hits rulePointsList) 100 in
  let c := countTrue hits in
  (Bool.eqb (c =? 0) (v =? 0) &&
   (if c <=? 1 then v <=? 40 else true) &&
   (if 3 <=? c then 45 <=? v else true) &&
   (if 4 <=? c then 75 <=? v else true))%bool.

Fixpoint nodupb (l : list string) : bool :=
  match l with
  | [] => true
  | x :: l' => (negb (existsb (String.eqb x) l') && nodupb l')%bool
  end.

(** A probe network on which the first model is gone and the second one
    answers. *)
Definition secondAnswers : ProbeNetwork :=
  fun log _ => match log with [] => Response 410 None | _ => Response 200 None end.

(** Probe networks on which every model is gone, and on which no request
    gets a response. *)
Definition allGoneProbe : ProbeNetwork := fun _ _ => Response 410 None.

Definition noResponse : ProbeNetwork := fun _ _ => Rejected.

(** The part of [analyzeEmail] after the choice of the scorer, on the
    three variables [(mlScore, mlConfidence, usedML)]. *)
Definition finishAnalysis (emailData : JsVal) (s : float * float * bool)
    : Completion Analysis :=
  let '(mlScore, mlConfidence, usedML) := s in
  let '(riskLevel, confidence, icon) := assess mlScore mlConfidence usedML in
  (confidence <- confidence ;;
   reasons <- generateReasons mlScore emailData usedML ;;
   Normal {| score := Num.round mlScore;
             riskLevel := riskLevel;
             confidence := confidence;
             details := {| mlScore := Num.round mlScore;
                           mlConfidence := Num.round mlConfidence;
                           usedAI := usedML |};
             reasons := reasons |})%js.

(** The detector with the remote mode switched off. *)
Definition localOnly (d : Detector) : Detector := setLoaded d false.

(** A network whose first model answers with one positive-class
    prediction of score 0.5. *)
Definition halfPhishing : Network :=
  fun _ _ => Response 200 (Some (JArr [prediction "spam" 0.5])).

Definition halfPhishingAnalysis : Analysis :=
  Eval vm_compute in
    match analyzeEmail 3 halfPhishing (emailData_of everyRuleEmail) (detectorAt 0) [] with
    | Some (Normal a, _, _) => a
    | _ => getErrorResult
    end.







(* ================================================================== *)
(** ** The risk level *)

Lemma assess_riskLevel (mlScore mlConfidence : float) (usedML : bool) :
  fst (fst (assess mlScore mlConfidence usedML)) = riskLevelOf mlScore.
Proof.
  unfold riskLevelOf, assess.
  destruct (Js.geb mlScore 65); [reflexivity|].
  destruct (Js.geb mlScore 35); reflexivity.
Qed.

Lemma Z_range_enum (P : Z -> bool) (n : nat) :
  forallb P (map Z.of_nat (seq 0 (S n))) = true ->
  forall z, 0 <= z <= Z.of_nat n -> P z = true.
Proof.
  intros H z Hz.
  rewrite forallb_forall in H. apply H.
  apply in_map_iff. exists (Z.to_nat z). split; [lia|].
  apply in_seq. lia.
Qed.

Lemma riskLevelOf_int (z : Z) :
  0 <= z <= 100 -> riskLevelOf (Js.Z2F z) = riskBand z.
Proof.
  intros Hz.
  pose proof (@Z_range_enum (fun z => sameRisk (riskLevelOf (Js.Z2F z)) (riskBand z)) 100) as H.
  specialize (H ltac:(vm_compute; reflexivity) z Hz). simpl in H.
  destruct (riskLevelOf (Js.Z2F z)), (riskBand z); simpl in H; congruence.
Qed.

Example risk_level_boundaries :
  map (fun z => riskLevelOf (Js.Z2F z)) [0; 34; 35; 64; 65; 100]
  = [low; low; medium; medium; high; high].
Proof. vm_compute. reflexivity. Qed.

(* ================================================================== *)
(** ** The scorer and the reason generator on an [EmailInput] *)

Lemma destructure_email (e : EmailInput) :
  Js.destructure (emailData_of e)
  = Normal (JStr (orEmpty (sender e)), JStr (orEmpty (subject e)), JStr (orEmpty (snippet e))).
Proof. destruct e as [[s|] [u|] [n|]]; reflexivity. Qed.

Lemma normalizedText_email (e : EmailInput) :
  normalizedText (JStr (orEmpty (sender e))) (JStr (orEmpty (subject e)))
                 (JStr (orEmpty (snippet e)))
  = Normal (textOf e).
Proof. reflexivity. Qed.

Lemma getEnhancedFallbackScore_email (e : EmailInput) :
  getEnhancedFallbackScore (emailData_of e)
  = Normal (Z.min (rulePoints (textOf e) (senderOf e)) 100).
Proof.
  unfold getEnhancedFallbackScore.
  rewrite destructure_email. cbn [bindC].
  rewrite normalizedText_email. reflexivity.
Qed.

Lemma rule_range (ic : bool) (r : Re.regex) (s : string) (points : Z) :
  0 <= points -> 0 <= rule ic r s points <= points.
Proof. intros H. unfold rule. destruct (Re.test ic r s); lia. Qed.

Lemma brandPoints_range (text senderStr : string) :
  0 <= brandPoints text senderStr <= 30.
Proof.
  unfold brandPoints.
  destruct (find _ brands); [|lia].
  destruct (Js.truthy _); [|lia].
  destruct (negb _); lia.
Qed.

Lemma rulePoints_range (text senderStr : string) :
  0 <= rulePoints text senderStr <= 320.
Proof.
  unfold rulePoints.
  pose proof (brandPoints_range text senderStr).
  pose proof (@rule_range false Pat.account text 40).
  pose proof (@rule_range false Pat.urgent text 35).
  pose proof (@rule_range false Pat.prize text 35).
  pose proof (@rule_range false Pat.payment text 30).
  pose proof (@rule_range false Pat.threat text 30).
  pose proof (@rule_range false Pat.sensitive text 35).
  pose proof (@rule_range true Pat.domain senderStr 40).
  pose proof (@rule_range false Pat.shortener text 20).
  pose proof (@rule_range false Pat.greeting text 15).
  pose proof (@rule_range false Pat.grammar text 10).
  lia.
Qed.

(** C6. For every [EmailInput] the pattern scorer returns, without
    throwing, a value between 0 and 100; the sum of the matched points can
    be larger (320 when every rule matches) and is then returned as 100. *)
Theorem fallback_score_clamped (e : EmailInput) :
  exists v : Z,
    getEnhancedFallbackScore (emailData_of e) = Normal v /\
    0 <= v <= 100 /\
    v = Z.min (rulePoints (textOf e) (senderOf e)) 100.
Proof.
  exists (Z.min (rulePoints (textOf e) (senderOf e)) 100).
  split; [apply getEnhancedFallbackScore_email|].
  pose proof (rulePoints_range (textOf e) (senderOf e)). lia.
Qed.

Example fallback_score_all_rules :
  rulePoints (textOf everyRuleEmail) (senderOf everyRuleEmail) = 320 /\
  getEnhancedFallbackScore (emailData_of everyRuleEmail) = Normal 100.
Proof. split; vm_compute; reflexivity. Qed.

Example fallback_score_empty :
  getEnhancedFallbackScore (emailData_of (mkEmail None None None)) = Normal 0 /\
  getEnhancedFallbackScore (JObj []) = Normal 0.
Proof. split; vm_compute; reflexivity. Qed.

Ltac case_tests :=
  repeat match goal with
         | |- context [Re.test ?ic ?r ?s] => destruct (Re.test ic r s)
         end.

Lemma generateReasons_email (score : float) (e : EmailInput) (usedML : bool) :
  generateReasons score (emailData_of e) usedML
  = Normal (firstn 5 (reasonsBeforeSlice score usedML (textOf e) (senderOf e))).
Proof.
  unfold generateReasons.
  rewrite destructure_email. cbn [bindC].
  rewrite normalizedText_email. cbn [bindC Js.asString].
  unfold reasonsBeforeSlice, signalReasons, signals, pushIf, senderOf.
  cbn [flat_map].
  case_tests; reflexivity.
Qed.

Lemma signalReasons_nil (e : EmailInput) :
  signalMatched e = false -> signalReasons (textOf e) (senderOf e) = [].
Proof.
  unfold signalMatched, signalReasons, signals. cbn [existsb flat_map].
  case_tests; cbn; congruence.
Qed.

(** C8. For every score, [EmailInput] and mode flag, [generateReasons]
    returns between 1 and 5 reasons (in fact at least 2), the first of which
    is the mode reason, one of four fixed texts; and when no content signal
    matches, the list is the mode reason followed by the fixed reason
    [reasonNoRedFlags]. *)
Theorem reasons_bounded (score : float) (e : EmailInput) (usedML : bool) :
  exists rs : list string,
    generateReasons score (emailData_of e) usedML = Normal rs /\
    (1 <= List.length rs <= 5)%nat /\
    (2 <= List.length rs)%nat /\
    hd_error rs = Some (modeReason score usedML) /\
    In (modeReason score usedML) modeReasons /\
    (signalMatched e = false ->
       rs = [modeReason score usedML; reasonNoRedFlags] /\ In reasonNoRedFlags rs).
Proof.
  eexists. split; [apply generateReasons_email|].
  unfold reasonsBeforeSlice.
  remember (signalReasons (textOf e) (senderOf e)) as sigs eqn:Hs.
  assert (Hmode : In (modeReason score usedML) modeReasons).
  { unfold modeReason, modeReasons.
    destruct usedML; [|simpl; tauto].
    destruct (Js.geb score 65); [simpl; tauto|].
    destruct (Js.geb score 35); simpl; tauto. }
  destruct sigs as [|s1 sigs].
  - cbn. repeat split; auto.
  - assert (Hsig : signalMatched e = false -> False).
    { intros H. apply signalReasons_nil in H. congruence. }
    cbn [List.length Nat.leb].
    pose proof (firstn_le_length 5 (modeReason score usedML :: s1 :: sigs)) as Hle.
    assert (Hge : (2 <= List.length (firstn 5 (modeReason score usedML :: s1 :: sigs)))%nat).
    { cbn. lia. }
    repeat split; try lia; auto; exfalso; auto.
Qed.

Example reasons_truncated :
  generateReasons 70 (emailData_of everyRuleEmail) false
  = Normal [reasonPattern; "🔒 Verification request"; "⚡ Urgency tactics";
            "🎰 Prize scam"; "🚨 Suspicious domain"].
Proof. vm_compute. reflexivity. Qed.

Example reasons_no_signal :
  generateReasons 0 (emailData_of (mkEmail (Some "newsletter@company.com")
                                            (Some "Weekly update")
                                            (Some "Here's what's new this week."))) false
  = Normal [reasonPattern; reasonNoRedFlags].
Proof. vm_compute. reflexivity. Qed.

(* ================================================================== *)
(** ** The normalisation of an answer *)

Lemma onlyTypeError_Normal {A} (a : A) : onlyTypeError (Normal a).
Proof. intros e H. discriminate. Qed.

Lemma onlyTypeError_Outside {A} : onlyTypeError (@Outside A).
Proof. intros e H. discriminate. Qed.

Lemma onlyTypeError_bind {A B} (c : Completion A) (k : A -> Completion B) :
  onlyTypeError c -> (forall a, onlyTypeError (k a)) -> onlyTypeError (bindC c k).
Proof.
  intros Hc Hk e H. destruct c as [a|e'|]; cbn in H.
  - exact (Hk a e H).
  - injection H as <-. apply Hc. reflexivity.
  - discriminate.
Qed.

Lemma onlyTypeError_get (v : JsVal) (k : string) : onlyTypeError (Js.get v k).
Proof. intros e H. destruct v; cbn in H; congruence. Qed.

Lemma onlyTypeError_asString (v : JsVal) : onlyTypeError (Js.asString v).
Proof. intros e H. destruct v; cbn in H; congruence. Qed.

Lemma onlyTypeError_ToNumber (v : JsVal) : onlyTypeError (Js.ToNumber v).
Proof. intros e H. destruct v as [| |[|]| | | |]; cbn in H; congruence. Qed.

Lemma onlyTypeError_find {A} (p : A -> Completion bool) (l : list A) :
  (forall a, onlyTypeError (p a)) -> onlyTypeError (Js.find p l).
Proof.
  intros Hp. induction l as [|a l IH]; cbn [Js.find].
  - apply onlyTypeError_Normal.
  - apply onlyTypeError_bind; [apply Hp|].
    intros [|]; [apply onlyTypeError_Normal | exact IH].
Qed.

Create HintDb only_type_error.

#[local] Hint Resolve onlyTypeError_Normal onlyTypeError_Outside onlyTypeError_get
  onlyTypeError_asString onlyTypeError_ToNumber : only_type_error.

Ltac only_type_error :=
  repeat first
    [ progress auto with only_type_error
    | apply onlyTypeError_bind; [|intros ?]
    | match goal with
      | |- onlyTypeError (if ?b then _ else _) => destruct b
      | |- onlyTypeError (match ?x with _ => _ end) => destruct x
      end ].

Lemma onlyTypeError_isSpam (p : JsVal) : onlyTypeError (isSpamPrediction p).
Proof. unfold isSpamPrediction. only_type_error. Qed.

Lemma onlyTypeError_isHam (p : JsVal) : onlyTypeError (isHamPrediction p).
Proof. unfold isHamPrediction. only_type_error. Qed.

Lemma onlyTypeError_classify (l : list JsVal) : onlyTypeError (classifyPredictions l).
Proof.
  unfold classifyPredictions.
  apply onlyTypeError_bind; [apply onlyTypeError_find, onlyTypeError_isSpam|].
  intros spamPred. destruct (Js.truthy (orUndefined spamPred)); [only_type_error|].
  apply onlyTypeError_bind; [apply onlyTypeError_find, onlyTypeError_isHam|].
  intros hamPred. only_type_error.
Qed.

Lemma onlyTypeError_parse (result : JsVal) : onlyTypeError (parseMLResult result).
Proof.
  unfold parseMLResult.
  apply onlyTypeError_bind.
  - destruct result as [| | | | |[|v l]|]; auto with only_type_error.
    apply onlyTypeError_classify.
  - intros [isPhishing confidence]. apply onlyTypeError_Normal.
Qed.

(** A prediction selected by one of the two searches is an object. *)
Lemma find_Some {A} (p : A -> Completion bool) (l : list A) (a : A) :
  Js.find p l = Normal (Some a) -> p a = Normal true.
Proof.
  induction l as [|x l IH]; cbn [Js.find]; [discriminate|].
  destruct (p x) as [[|]| |] eqn:Hx; cbn [bindC]; try discriminate.
  - intros H. injection H as <-. exact Hx.
  - exact IH.
Qed.

Lemma isHam_truthy (p : JsVal) : isHamPrediction p = Normal true -> Js.truthy p = true.
Proof. destruct p; cbn; try discriminate; reflexivity. Qed.

Lemma isSpam_truthy (p : JsVal) : isSpamPrediction p = Normal true -> Js.truthy p = true.
Proof. destruct p; cbn; try discriminate; reflexivity. Qed.

(** What the code returns when the first search finds nothing and the
    second one finds a prediction whose score is the number [s]. *)
Lemma parseMLResult_ham (elems : list JsVal) (p : JsVal) (s : float) :
  elems <> [] ->
  Js.find isSpamPrediction (predictionsOf elems) = Normal None ->
  Js.find isHamPrediction (predictionsOf elems) = Normal (Some p) ->
  Js.get p "score" = Normal (JNum s) ->
  parseMLResult (JArr elems)
  = Normal {| ml_score := (100 - (1 - s) * 100)%float;
              ml_confidence := ((1 - s) * 100)%float;
              ml_label := "SAFE" |}.
Proof.
  intros Hne Hspam Hham Hscore.
  destruct elems as [|v l]; [congruence|].
  unfold parseMLResult, classifyPredictions.
  rewrite Hspam. cbn [bindC orUndefined Js.truthy].
  rewrite Hham. cbn [bindC orUndefined].
  pose proof (find_Some _ _ Hham) as Hp. apply isHam_truthy in Hp. rewrite Hp.
  rewrite Hscore. reflexivity.
Qed.

(** What the code returns when neither search finds a prediction, and on
    an answer that is not a non-empty array. *)
Lemma parseMLResult_none (elems : list JsVal) :
  Js.find isSpamPrediction (predictionsOf elems) = Normal None ->
  Js.find isHamPrediction (predictionsOf elems) = Normal None ->
  parseMLResult (JArr elems)
  = Normal {| ml_score := 100; ml_confidence := 0; ml_label := "SAFE" |}.
Proof.
  intros Hspam Hham.
  destruct elems as [|v l]; [reflexivity|].
  unfold parseMLResult, classifyPredictions.
  rewrite Hspam. cbn [bindC orUndefined Js.truthy].
  rewrite Hham. reflexivity.
Qed.

Lemma parseMLResult_not_array (result : JsVal) :
  (forall elems, result <> JArr elems) ->
  parseMLResult result
  = Normal {| ml_score := 100; ml_confidence := 0; ml_label := "SAFE" |}.
Proof.
  intros H. destruct result; try reflexivity.
  exfalso. exact (H _ eq_refl).
Qed.

(** C1. On the answer [[{label: 'ham', score: 0.75}]], which has no
    positive-class prediction and one negative-class prediction of score
    0.75, [parseMLResult] returns the score 75 = 100 - (1 - 0.75) * 100 with
    the label SAFE; the value (1 - 0.75) * 100 = 25 is what it returns as
    the confidence. *)
Theorem ham_score_inverted :
  parseMLResult (JArr [prediction "ham" 0.75])
  = Normal {| ml_score := 75; ml_confidence := 25; ml_label := "SAFE" |} /\
  ((1 - 0.75) * 100 = 25)%float /\
  (100 - (1 - 0.75) * 100 = 75)%float.
Proof. repeat split. Qed.

(** C2. On the empty array, on an answer that is not an array and on an
    array without a known label, [parseMLResult] returns the score 100 with
    the confidence 0 and the label SAFE; on an array that holds [null], or a
    prediction whose label is a number, it throws a [TypeError]. *)
Theorem no_label_score :
  parseMLResult (JArr [])
  = Normal {| ml_score := 100; ml_confidence := 0; ml_label := "SAFE" |} /\
  parseMLResult (JObj [("error", JStr "Model is loading")])
  = Normal {| ml_score := 100; ml_confidence := 0; ml_label := "SAFE" |} /\
  parseMLResult (JArr [prediction "neutral" 0.5])
  = Normal {| ml_score := 100; ml_confidence := 0; ml_label := "SAFE" |} /\
  parseMLResult (JArr [JNull]) = Throw TypeError /\
  parseMLResult (JArr [JObj [("label", JNum 1); ("score", JNum 0.5)]]) = Throw TypeError.
Proof. repeat split. Qed.

(* ================================================================== *)
(** ** The remote call *)

Lemma setIndex_same (d : Detector) : setIndex d (currentModelIndex d) = d.
Proof. destruct d. reflexivity. Qed.

(** The equations of a call that runs alone. *)
Lemma getMLPrediction_O (net : Network) (text : string) (d : Detector) (log : list Request) :
  getMLPrediction 0 net text d log = None.
Proof. reflexivity. Qed.

Lemma getMLPrediction_S (fuel : nat) (net : Network) (text : string)
    (d : Detector) (log : list Request) :
  getMLPrediction (S fuel) net text d log
  = match nth_error (models d) (currentModelIndex d) with
    | None => Some (Throw TypeError, d, log)
    | Some currentModel =>
        let req := requestFor d currentModel text in
        let log' := log ++ [req] in
        match net log req with
        | Rejected => Some (Throw FetchFailed, d, log')
        | Response status body =>
            if negb (ok status) then
              if Nat.eqb status 410 then
                let d' := setIndex d
                            ((currentModelIndex d + 1) mod List.length (models d))%nat in
                if Nat.eqb (currentModelIndex d') 0
                then Some (Throw (Error "All models deprecated"), d', log')
                else getMLPrediction fuel net text d' log'
              else Some (Throw (Error ("API " ++ Str.ofNat status)%string), d, log')
            else
              match body with
              | None => Some (Throw SyntaxError, d, log')
              | Some result => Some (parseMLResult result, d, log')
              end
        end
    end.
Proof.
  unfold getMLPrediction. cbn [getMLPredictionShared]. unfold alone.
  rewrite setIndex_same. reflexivity.
Qed.

(** A call among others that leave the index alone is a call alone. *)
Lemma shared_quiet (others : Interference) (net : Network) (text : string) (fuel : nat) :
  (forall l i, others l i = i) ->
  forall (d : Detector) (log : list Request),
    getMLPredictionShared fuel others net text d log = getMLPrediction fuel net text d log.
Proof.
  intros Hq. induction fuel as [|fuel IH]; intros d log; [reflexivity|].
  rewrite getMLPrediction_S. cbn [getMLPredictionShared].
  destruct (nth_error (models d) (currentModelIndex d)) as [m|]; [|reflexivity].
  cbv zeta. rewrite Hq, setIndex_same.
  destruct (net log (requestFor d m text)) as [|status body]; [reflexivity|].
  destruct (negb (ok status)); [|reflexivity].
  destruct (Nat.eqb status 410); [|reflexivity].
  destruct (Nat.eqb _ 0); [reflexivity|]. apply IH.
Qed.

Lemma requestFor_setIndex (d : Detector) (i : nat) (m : Model) (text : string) :
  requestFor (setIndex d i) m text = requestFor d m text.
Proof. reflexivity. Qed.

Lemma skipn_nth_error {A} (l : list A) (i : nat) (a : A) :
  nth_error l i = Some a -> skipn i l = a :: skipn (S i) l.
Proof.
  revert l. induction i as [|i IH]; intros [|x l] H; cbn in *; try discriminate.
  - congruence.
  - apply IH. exact H.
Qed.

Lemma requestsFrom_S (d : Detector) (text : string) (k : nat) (m : Model) :
  nth_error (models d) (currentModelIndex d) = Some m ->
  requestsFrom d text (S k)
  = requestFor d m text :: requestsFrom (setIndex d (S (currentModelIndex d))) text k.
Proof.
  intros H. unfold requestsFrom.
  rewrite (skipn_nth_error _ _ H). reflexivity.
Qed.

Lemma next_index (i n : nat) :
  (i < n)%nat -> ((i + 1) mod n = 0)%nat \/ ((i + 1) mod n = S i /\ S i < n)%nat.
Proof.
  intros H. destruct (Nat.eq_dec (S i) n) as [E|E].
  - left. subst n. replace (i + 1)%nat with (S i) by lia. apply Nat.Div0.mod_same.
  - right. split; [|lia]. rewrite Nat.mod_small; lia.
Qed.

Lemma next_index_zero (i n : nat) :
  (i < n)%nat -> ((i + 1) mod n = 0)%nat -> n = S i.
Proof.
  intros H H0. destruct (next_index H) as [_|[H1 _]]; [|lia].
  destruct (Nat.eq_dec (S i) n) as [E|E]; [congruence|].
  rewrite Nat.mod_small in H0; lia.
Qed.

Lemma parse_not_allDeprecated (result : JsVal) :
  parseMLResult result <> Throw allDeprecated.
Proof.
  intros H. apply onlyTypeError_parse in H. discriminate.
Qed.

Lemma requestsFrom_1 (d : Detector) (text : string) (m : Model) :
  nth_error (models d) (currentModelIndex d) = Some m ->
  requestsFrom d text 1 = [requestFor d m text].
Proof. intros H. rewrite (requestsFrom_S _ _ _ H). reflexivity. Qed.

Lemma call_shape (net : Network) (text : string) (fuel : nat) :
  forall (d : Detector) (log : list Request) (r : Run MLResult),
    getMLPrediction fuel net text d log = Some r -> callShape net text d log r.
Proof.
  induction fuel as [|fuel IH]; intros d log r H; [discriminate|].
  rewrite getMLPrediction_S in H. cbv zeta in H.
  destruct (nth_error (models d) (currentModelIndex d)) as [m|] eqn:Hm.
  2:{ injection H as <-. apply nth_error_None in Hm. cbn.
      exists 0%nat. unfold requestsFrom. cbn. rewrite app_nil_r.
      repeat split; try lia.
      right. repeat split; [discriminate | lia]. }
  assert (Hi : (currentModelIndex d < List.length (models d))%nat).
  { apply nth_error_Some. congruence. }
  (* the shape after a single request that is not answered 410 *)
  assert (Hone : forall c, c <> Throw allDeprecated ->
            callShape net text d log (c, d, log ++ [requestFor d m text])).
  { intros c Hc. cbn. exists 1%nat. rewrite (requestsFrom_1 _ _ Hm).
    repeat split; try lia.
    right. repeat split; [exact Hc | lia]. }
  destruct (net log (requestFor d m text)) as [|status body] eqn:Hnet.
  - injection H as <-. apply Hone. discriminate.
  - destruct (ok status) eqn:Hok; cbn [negb] in H.
    + destruct body as [result|]; injection H as <-; apply Hone;
        [apply parse_not_allDeprecated | discriminate].
    + destruct (Nat.eqb status 410) eqn:H410.
      2:{ injection H as <-. apply Hone. cbn. discriminate. }
      apply Nat.eqb_eq in H410. subst status.
      cbn [currentModelIndex setIndex] in H.
      destruct (next_index Hi) as [Hz|[Hs Hlt]].
      * rewrite Hz in H. cbn [Nat.eqb] in H. injection H as <-. cbn.
        pose proof (next_index_zero Hi Hz) as Hn.
        exists 1%nat. rewrite (requestsFrom_1 _ _ Hm).
        repeat split; try lia.
        left. repeat split; [lia | eauto].
      * rewrite Hs in H. cbn [Nat.eqb] in H.
        apply IH in H. destruct r as [[c d'] log'].
        cbn in H. destruct H as (k & Hlog & Hk & H1 & Hmod & Hkey & Hld & Hcase).
        cbn. exists (S k).
        rewrite (requestsFrom_S _ _ _ Hm), Hlog, <- app_assoc.
        specialize (H1 Hlt).
        repeat split; try lia; try assumption.
        destruct Hcase as [(Hc & Hkn & Hg & Hidx) | (Hc & Hg & Hidx)].
        -- left. repeat split; try assumption; try lia. eauto.
        -- right. split; [exact Hc|]. split; [|lia].
           replace (S k - 1)%nat with (S (k - 1)) by lia.
           rewrite (requestsFrom_S _ _ _ Hm). cbn [gone]. split; [eauto | exact Hg].
Qed.

(** One unit of fuel per model from the current index on is enough, and
    more fuel does not change the result. *)
Lemma enough_fuel (net : Network) (text : string) (fuel : nat) :
  forall (d : Detector) (log : list Request),
    (List.length (models d) - currentModelIndex d < fuel)%nat ->
    exists r, getMLPrediction fuel net text d log = Some r.
Proof.
  induction fuel as [|fuel IH]; intros d log Hf; [lia|].
  rewrite getMLPrediction_S. cbv zeta.
  destruct (nth_error (models d) (currentModelIndex d)) as [m|] eqn:Hm; [|eauto].
  assert (Hi : (currentModelIndex d < List.length (models d))%nat).
  { apply nth_error_Some. congruence. }
  destruct (net log (requestFor d m text)) as [|status body]; [eauto|].
  destruct (negb (ok status)); [|destruct body; eauto].
  destruct (Nat.eqb status 410); [|eauto].
  cbn [currentModelIndex setIndex].
  destruct (next_index Hi) as [Hz|[Hs Hlt]].
  - rewrite Hz. cbn. eauto.
  - rewrite Hs. cbn [Nat.eqb]. apply IH. cbn. lia.
Qed.

Lemma more_fuel (net : Network) (text : string) (fuel : nat) :
  forall (d : Detector) (log : list Request) (r : Run MLResult) (extra : nat),
    getMLPrediction fuel net text d log = Some r ->
    getMLPrediction (fuel + extra) net text d log = Some r.
Proof.
  induction fuel as [|fuel IH]; intros d log r extra H; [discriminate|].
  cbn [Nat.add]. rewrite getMLPrediction_S in *. cbv zeta in *.
  destruct (nth_error (models d) (currentModelIndex d)) as [m|]; [|exact H].
  destruct (net log (requestFor d m text)) as [|status body]; [exact H|].
  destruct (negb (ok status)); [|exact H].
  destruct (Nat.eqb status 410); [|exact H].
  destruct (Nat.eqb _ 0); [exact H|].
  apply IH. exact H.
Qed.

Lemma requestsFrom_length (d : Detector) (text : string) (k : nat) :
  (k <= List.length (models d) - currentModelIndex d)%nat ->
  List.length (requestsFrom d text k) = k.
Proof.
  intros H. unfold requestsFrom.
  rewrite length_map, length_firstn, length_skipn. lia.
Qed.

(** C10 as claimed fails on a shared detector.  Two models, both gone; the
    call starts at index 0 and asks the first model, then the second; while
    it waits for the second answer another call wraps the index to 0, so
    the 410 moves the index to 1 without a wrap and the call asks the second
    model again: three requests for two models. *)
Lemma shared_call_repeats_a_request :
  getMLPredictionShared 4 anotherCallWraps allGone "hello" (detectorAt 0) []
  = Some (Throw allDeprecated, detectorAt 0,
          [ requestFor (detectorAt 0) spamDetector "hello";
            requestFor (detectorAt 0) smsDetector "hello";
            requestFor (detectorAt 0) smsDetector "hello" ]) /\
  List.length (models (detectorAt 0)) = 2%nat /\
  ~ oneRequestPerModel.
Proof.
  assert (H : getMLPredictionShared 4 anotherCallWraps allGone "hello" (detectorAt 0) []
              = Some (Throw allDeprecated, detectorAt 0,
                      [ requestFor (detectorAt 0) spamDetector "hello";
                        requestFor (detectorAt 0) smsDetector "hello";
                        requestFor (detectorAt 0) smsDetector "hello" ]))
    by reflexivity.
  split; [exact H|]. split; [reflexivity|].
  intros Hc. destruct (Hc _ _ _ _ _ _ _ _ _ H) as (reqs & Hlog & Hlen).
  cbn [app] in Hlog. subst reqs. cbn in Hlen. lia.
Qed.

(** C10 (amended). Whatever the network answers, a call of
    [getMLPrediction] during which no other call changes the index
    finishes: with one unit of fuel per configured model and one more it
    returns a completion, the same with any larger fuel.  Its requests go
    to consecutive positions of the model list, from the current index on,
    one request per position, so there are at most as many requests as
    configured models. *)
Theorem remote_call_terminates_when_alone (others : Interference) (net : Network)
    (text : string) (d : Detector) (log : list Request) (extra : nat) :
  quiet others ->
  let n := List.length (models d) in
  exists (c : Completion MLResult) (d' : Detector) (reqs : list Request),
    getMLPredictionShared (S n) others net text d log = Some (c, d', log ++ reqs) /\
    getMLPredictionShared (S n + extra) others net text d log = Some (c, d', log ++ reqs) /\
    reqs = requestsFrom d text (List.length reqs) /\
    (List.length reqs <= n - currentModelIndex d)%nat /\
    (List.length reqs <= n)%nat.
Proof.
  intros Hq n.
  pose proof (fun f => @shared_quiet others net text f Hq) as Hsq. rewrite !Hsq.
  destruct (@enough_fuel net text (S n) d log ltac:(lia)) as [[[c d'] log'] H].
  pose proof (call_shape _ _ _ _ _ H) as Hs. cbn in Hs.
  destruct Hs as (k & Hlog & Hk & _).
  exists c, d', (requestsFrom d text k).
  rewrite (requestsFrom_length _ _ Hk). fold n in Hk. subst log'.
  repeat split; try lia; [exact H | apply more_fuel; exact H].
Qed.

Lemma remote_call_terminates_when_alone_witness :
  exists (c : Completion MLResult) (d' : Detector) (reqs : list Request),
    getMLPredictionShared 3 alone allGone "hello" (detectorAt 0) []
    = Some (c, d', reqs) /\
    (List.length reqs <= 2)%nat.
Proof.
  destruct (@remote_call_terminates_when_alone alone allGone "hello" (detectorAt 0) [] 0
              (fun _ _ => eq_refl))
    as (c & d' & reqs & H & _ & _ & _ & Hlen).
  exists c, d', reqs. split; [exact H | exact Hlen].
Defined.

(** C4 as claimed fails: from index 1 the call asks the second model
    only, and throws [allDeprecated] although the first model was not
    asked. *)
Lemma exhaustion_skips_earlier_models :
  getMLPrediction 3 allGone "hello" (detectorAt 1) []
  = Some (Throw allDeprecated, detectorAt 0,
          [ {| req_url := "https://api-inference.huggingface.co/models/mrm8488/bert-tiny-finetuned-sms-phishing-detection";
               req_authorization := "Bearer hf_key";
               req_inputs := "hello";
               req_wait_for_model := true;
               req_use_cache := false |} ]) /\
  ~ exhaustionTriesAll allGone "hello" (detectorAt 1).
Proof.
  split; [reflexivity|].
  intros H.
  specialize (H 3%nat _ _ eq_refl _ (or_introl eq_refl)).
  cbn in H. destruct H as [H|[]]. discriminate.
Qed.

(** C4 (amended). When a call during which no other call changes the
    index throws [allDeprecated], the current index was inside the list,
    the call has requested every model from that index to the end of the
    list, in order and once each, every one of these requests was answered
    410, and the index is back at 0.  Models before the starting index are
    not requested; from index 0 the requests are those of the whole
    list. *)
Theorem exhaustion_when_alone (fuel : nat) (others : Interference) (net : Network)
    (text : string) (d d' : Detector) (log log' : list Request) :
  quiet others ->
  getMLPredictionShared fuel others net text d log
  = Some (Throw allDeprecated, d', log') ->
  let i := currentModelIndex d in
  let n := List.length (models d) in
  (i < n)%nat /\
  log' = log ++ map (fun m => requestFor d m text) (skipn i (models d)) /\
  gone net log (map (fun m => requestFor d m text) (skipn i (models d))) /\
  currentModelIndex d' = 0%nat /\
  (i = 0%nat -> log' = log ++ map (fun m => requestFor d m text) (models d)).
Proof.
  intros Hq H i n. rewrite (@shared_quiet others net text fuel Hq) in H.
  pose proof (call_shape _ _ _ _ _ H) as Hs. cbn in Hs.
  destruct Hs as (k & Hlog & Hk & H1 & _ & _ & _ & Hcase).
  destruct Hcase as [(_ & Hkn & Hg & Hidx) | (Hc & _)]; [|congruence].
  fold i n in Hkn, H1, Hk.
  assert (Hall : requestsFrom d text k
                 = map (fun m => requestFor d m text) (skipn i (models d))).
  { unfold requestsFrom. fold i. rewrite firstn_all2; [reflexivity|].
    rewrite length_skipn. fold n. lia. }
  rewrite Hall in Hlog, Hg.
  assert (Hin : (i < n)%nat).
  { destruct (Nat.lt_ge_cases i n) as [Hlt|Hge]; [exact Hlt|].
    exfalso. destruct fuel as [|fuel]; [discriminate|].
    rewrite getMLPrediction_S in H.
    destruct (nth_error (models d) (currentModelIndex d)) eqn:Hm.
    - assert (currentModelIndex d < List.length (models d))%nat
        by (apply nth_error_Some; congruence).
      fold i n in H0. lia.
    - discriminate. }
  repeat split; try assumption.
  intros Hi0. rewrite Hlog, Hi0. reflexivity.
Qed.

Lemma exhaustion_when_alone_witness :
  getMLPredictionShared 3 alone allGone "hello" (detectorAt 0) []
  = Some (Throw allDeprecated, detectorAt 0,
          map (fun m => requestFor (detectorAt 0) m "hello") configuredModels) /\
  currentModelIndex (detectorAt 0) = 0%nat.
Proof.
  split; [reflexivity|].
  pose proof (@exhaustion_when_alone 3 alone allGone "hello" (detectorAt 0) (detectorAt 0) []
                (map (fun m => requestFor (detectorAt 0) m "hello") configuredModels)
                (fun _ _ => eq_refl) eq_refl) as H.
  cbn zeta in H. destruct H as (_ & _ & _ & H & _). exact H.
Defined.

(** Without the condition the amended statement fails too: while the call
    waits for the answer of the first model another call moves the index
    to 1, the 410 wraps it to 0, and the call throws [allDeprecated] from
    index 0 after one request. *)
Example shared_exhaustion_after_one_request :
  getMLPredictionShared 3 anotherCallAdvances allGone "hello" (detectorAt 0) []
  = Some (Throw allDeprecated, detectorAt 0,
          [requestFor (detectorAt 0) spamDetector "hello"]).
Proof. reflexivity. Qed.



(* ================================================================== *)
(** ** The outer [catch] *)

Lemma analyzeEmail_never_throws (fuel : nat) (net : Network) (emailData : JsVal)
    (d d' : Detector) (log log' : list Request) (e : Exn) :
  analyzeEmail fuel net emailData d log <> Some (Throw e, d', log').
Proof.
  unfold analyzeEmail.
  destruct (analyzeEmailBody fuel net emailData d log) as [[[[a|e'|] d1] log1]|];
    discriminate.
Qed.

(** C7. When the body of [analyzeEmail] ends with an exception that none
    of its inner handlers caught, [analyzeEmail] returns the fixed result of
    [getErrorResult] - score 50, risk level medium, the confidence text
    "Unable to analyze" and the single reason "Analysis error" - and in no
    case does it end with an exception itself. *)
Theorem degraded_result (fuel : nat) (net : Network) (emailData : JsVal)
    (d d' : Detector) (log log' : list Request) (e : Exn) :
  analyzeEmailBody fuel net emailData d log = Some (Throw e, d', log') ->
  analyzeEmail fuel net emailData d log = Some (Normal getErrorResult, d', log') /\
  score getErrorResult = 50%float /\
  riskLevel getErrorResult = medium /\
  confidence getErrorResult = "Unable to analyze" /\
  reasons getErrorResult = ["⚠️ Analysis error"] /\
  (forall e2 d2 log2, analyzeEmail fuel net emailData d log <> Some (Throw e2, d2, log2)).
Proof.
  intros H. unfold analyzeEmail at 1. rewrite H.
  repeat split. intros e2 d2 log2. apply analyzeEmail_never_throws.
Qed.

(** Two inputs that reach the outer handler: [null] in place of the
    record, whose destructuring throws before any request, and a record
    whose sender is [null], on which the pattern scorer throws after the
    remote call has failed over and given up. *)
Lemma degraded_result_witness :
  analyzeEmailBody 3 allGone JNull (detectorAt 0) [] = Some (Throw TypeError, detectorAt 0, []) /\
  analyzeEmail 3 allGone JNull (detectorAt 0) [] = Some (Normal getErrorResult, detectorAt 0, []).
Proof.
  split; [reflexivity|].
  apply (@degraded_result 3 allGone JNull (detectorAt 0) (detectorAt 0) [] [] TypeError).
  reflexivity.
Defined.

Example degraded_result_null_sender :
  exists log',
    analyzeEmail 3 allGone (JObj [("sender", JNull); ("subject", JStr "hi")]) (detectorAt 0) []
    = Some (Normal getErrorResult, detectorAt 0, log') /\ List.length log' = 2%nat.
Proof. eexists. split; [vm_compute; reflexivity | reflexivity]. Qed.

(** An exception of the remote call is caught by the inner handler: the
    result is the pattern score, not the degraded result. *)
Example remote_failure_falls_back :
  exists a log',
    analyzeEmail 3 allGone
      (emailData_of (mkEmail (Some "security@paypa1.com")
                             (Some "Your account has been suspended")
                             (Some "Verify your identity immediately or lose access.")))
      (detectorAt 0) []
    = Some (Normal a, detectorAt 0, log') /\
    score a = 70%float /\ riskLevel a = high /\ usedAI (details a) = false.
Proof. eexists. eexists. split; [vm_compute; reflexivity | repeat split]. Qed.

(** The defect of the normalisation seen from the entry point: an empty
    answer of the model is reported as a phishing mail. *)
Example empty_answer_is_high_risk :
  exists a log',
    analyzeEmail 3 (fun _ _ => Response 200 (Some (JArr [])))
      (emailData_of (mkEmail (Some "newsletter@company.com") (Some "Weekly update")
                             (Some "Here's what's new this week.")))
      (detectorAt 0) []
    = Some (Normal a, detectorAt 0, log') /\
    score a = 100%float /\ riskLevel a = high /\
    confidence a = "🤖 AI: 0% phishing".
Proof. eexists. eexists. split; [vm_compute; reflexivity | repeat split]. Qed.

(* ================================================================== *)
(** ** Text appended to the snippet *)

Lemma append_assoc (a b c : string) : ((a ++ b) ++ c = a ++ (b ++ c))%string.
Proof. induction a as [|x a IH]; cbn; [reflexivity | now rewrite IH]. Qed.

Lemma toLowerCase_app (a b : string) :
  Str.toLowerCase (a ++ b) = (Str.toLowerCase a ++ Str.toLowerCase b)%string.
Proof. induction a as [|x a IH]; cbn; [reflexivity | now rewrite IH]. Qed.

Lemma prefix_nil (s : string) : String.prefix "" s = true.
Proof. destruct s; reflexivity. Qed.

Lemma prefix_app (b s t : string) :
  String.prefix b s = true -> String.prefix b (s ++ t) = true.
Proof.
  revert s. induction b as [|x b IH]; intros s H; [apply prefix_nil|].
  destruct s as [|y s]; cbn in *; [discriminate|].
  destruct (ascii_dec x y); [apply IH; exact H | discriminate].
Qed.

Lemma prefix_lower (b s : string) :
  String.prefix b s = true ->
  String.prefix (Str.toLowerCase b) (Str.toLowerCase s) = true.
Proof.
  revert s. induction b as [|x b IH]; intros s H; [apply prefix_nil|].
  destruct s as [|y s]; cbn in *; [discriminate|].
  destruct (ascii_dec x y) as [->|]; [|discriminate].
  destruct (ascii_dec (Str.lowerChar y) (Str.lowerChar y)); [apply IH; exact H | congruence].
Qed.

Lemma includes_app_r (s t b : string) :
  Str.includes s b = true -> Str.includes (s ++ t) b = true.
Proof.
  induction s as [|x s IH]; cbn [Str.includes]; intros H.
  - rewrite orb_false_r in H.
    destruct b; [|discriminate]. destruct t; reflexivity.
  - apply orb_true_iff in H. apply orb_true_iff. destruct H as [H|H].
    + left. apply (prefix_app _ (String x s) t H).
    + right. apply IH. exact H.
Qed.

Lemma includes_app_l (p s b : string) :
  Str.includes s b = true -> Str.includes (p ++ s) b = true.
Proof.
  intros H. induction p as [|x p IH]; [exact H|].
  cbn [append Str.includes]. rewrite IH. apply orb_true_r.
Qed.

Lemma includes_lower (s b : string) :
  Str.includes s b = true ->
  Str.includes (Str.toLowerCase s) (Str.toLowerCase b) = true.
Proof.
  induction s as [|x s IH]; cbn [Str.includes Str.toLowerCase]; intros H.
  - rewrite orb_false_r in H. destruct b; [reflexivity | discriminate].
  - apply orb_true_iff in H. apply orb_true_iff. destruct H as [H|H].
    + left. apply (prefix_lower _ (String x s) H).
    + right. apply IH. exact H.
Qed.

(** The pieces of a split are substrings of the string. *)
Lemma split_head (sep : ascii) (s : string) :
  exists first rest q, Str.split sep s = first :: rest /\ s = (first ++ q)%string.
Proof.
  induction s as [|c s IH]; cbn [Str.split].
  - exists "", [], "". split; reflexivity.
  - destruct (Ascii.eqb c sep).
    + exists "", (Str.split sep s), (String c s). split; reflexivity.
    + destruct IH as (f & r & q & -> & Hs).
      exists (String c f), r, q. split; [reflexivity|]. cbn. now rewrite <- Hs.
Qed.

Lemma split_second (sep : ascii) (s d : string) :
  nth_error (Str.split sep s) 1 = Some d ->
  exists p q, s = (p ++ d ++ q)%string.
Proof.
  induction s as [|c s IH]; cbn [Str.split]; [discriminate|].
  destruct (Ascii.eqb c sep).
  - cbn [nth_error]. destruct (split_head sep s) as (f & r & q & -> & Hs).
    cbn [nth_error]. intros H. injection H as <-.
    exists (String c ""), q. cbn. now rewrite <- Hs.
  - destruct (split_head sep s) as (f & r & q & Hf & _). rewrite Hf in *.
    cbn [nth_error] in *. intros H. destruct (IH H) as (p & q' & ->).
    exists (String c p), q'. reflexivity.
Qed.

Lemma domainOf_included (senderStr b : string) :
  Str.includes (domainOf senderStr) b = true -> Str.includes senderStr b = true.
Proof.
  unfold domainOf.
  destruct (nth_error (Str.split "@" senderStr) 1) as [d|] eqn:Hd.
  - destruct (split_second _ _ Hd) as (p & q & Hs). intros H.
    rewrite Hs. apply includes_app_l, includes_app_r. exact H.
  - cbn. destruct b; [|discriminate]. intros _. destruct senderStr; reflexivity.
Qed.

Lemma matchHere_app (ic : bool) (s t : string) :
  forall r, Re.matchHere ic r s = true -> Re.matchHere ic r (s ++ t) = true.
Proof.
  induction s as [|x s IH]; intros r H; cbn [Re.matchHere append] in *.
  - rewrite orb_false_r in H. destruct t; cbn [Re.matchHere]; rewrite H; reflexivity.
  - apply orb_true_iff in H. apply orb_true_iff. destruct H as [H|H]; [left; exact H|].
    right. apply IH. exact H.
Qed.

Lemma test_app_r (ic : bool) (r : Re.regex) (s t : string) :
  Re.test ic r s = true -> Re.test ic r (s ++ t) = true.
Proof.
  induction s as [|x s IH]; cbn [Re.test append]; intros H.
  - rewrite orb_false_r in H.
    pose proof (matchHere_app ic "" t r H) as H'. cbn [append] in H'.
    destruct t; cbn [Re.test]; rewrite H'; reflexivity.
  - apply orb_true_iff in H. apply orb_true_iff. destruct H as [H|H].
    + left. apply (matchHere_app ic (String x s) t r H).
    + right. apply IH. exact H.
Qed.

Lemma test_app_l (ic : bool) (r : Re.regex) (p s : string) :
  Re.test ic r s = true -> Re.test ic r (p ++ s) = true.
Proof.
  intros H. induction p as [|x p IH]; [exact H|].
  cbn [append Re.test]. rewrite IH. apply orb_true_r.
Qed.

Lemma rule_mono (ic : bool) (r : Re.regex) (s t : string) (points : Z) :
  0 <= points -> rule ic r s points <= rule ic r (s ++ t) points.
Proof.
  intros Hp. unfold rule.
  destruct (Re.test ic r s) eqn:H; [rewrite (test_app_r _ _ _ t H); lia|].
  destruct (Re.test ic r (s ++ t)); lia.
Qed.

(** The first element that satisfies a weaker predicate is the same
    element, or one that the stronger predicate rejects. *)
Lemma find_weaken {A} (p p' : A -> bool) (l : list A) (b : A) :
  (forall x, p x = true -> p' x = true) ->
  find p l = Some b ->
  exists b', find p' l = Some b' /\ (b' = b \/ p b' = false).
Proof.
  intros Hpp'. induction l as [|x l IH]; cbn [find]; [discriminate|].
  destruct (p x) eqn:Hx.
  - intros H. injection H as <-. rewrite (Hpp' _ Hx). eauto.
  - intros H. destruct (p' x); [eauto|]. apply IH. exact H.
Qed.

Lemma brands_lower (b : string) : In b brands -> Str.toLowerCase b = b.
Proof.
  cbn. intros H. repeat (destruct H as [<-|H]; [reflexivity|]). destruct H.
Qed.

Lemma brandPoints_mono (text extra senderStr : string) :
  (forall b, In b brands -> Str.includes senderStr b = true -> Str.includes text b = true) ->
  brandPoints text senderStr <= brandPoints (text ++ extra) senderStr.
Proof.
  intros Hsender.
  pose proof (brandPoints_range (text ++ extra) senderStr) as Hr.
  unfold brandPoints in *.
  destruct (find (fun b => Str.includes text b) brands) as [b|] eqn:Hf; [|lia].
  destruct (@find_weaken _ (fun b => Str.includes text b)
              (fun b => Str.includes (text ++ extra) b) brands b) as (b' & Hf' & Hb');
    [intros x; apply includes_app_r | exact Hf |].
  rewrite Hf' in *.
  destruct (Js.truthy (JStr senderStr)); [|lia].
  destruct (Str.includes (domainOf senderStr) b) eqn:Hd; cbn [negb]; [lia|].
  destruct Hb' as [->|Hb']; [rewrite Hd; cbn; lia|].
  destruct (Str.includes (domainOf senderStr) b') eqn:Hd'; cbn [negb]; [|lia].
  exfalso. apply find_some in Hf'. destruct Hf' as [Hin _].
  apply domainOf_included in Hd'. apply (Hsender _ Hin) in Hd'. congruence.
Qed.

Lemma rulePoints_mono (text extra senderStr : string) :
  (forall b, In b brands -> Str.includes senderStr b = true -> Str.includes text b = true) ->
  rulePoints text senderStr <= rulePoints (text ++ extra) senderStr.
Proof.
  intros Hsender. unfold rulePoints.
  pose proof (brandPoints_mono text extra senderStr Hsender).
  pose proof (@rule_mono false Pat.account text extra 40).
  pose proof (@rule_mono false Pat.urgent text extra 35).
  pose proof (@rule_mono false Pat.prize text extra 35).
  pose proof (@rule_mono false Pat.payment text extra 30).
  pose proof (@rule_mono false Pat.threat text extra 30).
  pose proof (@rule_mono false Pat.sensitive text extra 35).
  pose proof (@rule_mono false Pat.shortener text extra 20).
  pose proof (@rule_mono false Pat.greeting text extra 15).
  pose proof (@rule_mono false Pat.grammar text extra 10).
  lia.
Qed.

Lemma textOf_appendSnippet (e : EmailInput) (extra : string) :
  textOf (appendSnippet e extra) = (textOf e ++ Str.toLowerCase extra)%string.
Proof.
  unfold textOf, appendSnippet. cbn [sender subject snippet orEmpty].
  rewrite <- toLowerCase_app. f_equal.
  rewrite !append_assoc. reflexivity.
Qed.

Lemma sender_in_text (e : EmailInput) (b : string) :
  In b brands -> Str.includes (senderOf e) b = true -> Str.includes (textOf e) b = true.
Proof.
  intros Hin H. apply includes_lower in H. rewrite (brands_lower Hin) in H.
  unfold textOf. rewrite toLowerCase_app. apply includes_app_r. exact H.
Qed.

(** C3 (amended). For every [EmailInput] and every text appended to its
    snippet, the pattern scorer returns on both inputs, and the score of
    the extended input is not smaller than the score of the original one;
    this holds for each rule, the brand rule included. *)
Theorem snippet_extension_monotone (e : EmailInput) (extra : string) :
  exists v v' : Z,
    getEnhancedFallbackScore (emailData_of e) = Normal v /\
    getEnhancedFallbackScore (emailData_of (appendSnippet e extra)) = Normal v' /\
    v <= v' /\
    brandPoints (textOf e) (senderOf e)
    <= brandPoints (textOf (appendSnippet e extra)) (senderOf (appendSnippet e extra)).
Proof.
  do 2 eexists. rewrite !getEnhancedFallbackScore_email.
  split; [reflexivity|]. split; [reflexivity|].
  rewrite textOf_appendSnippet.
  change (senderOf (appendSnippet e extra)) with (senderOf e).
  pose proof (rulePoints_mono (textOf e) (Str.toLowerCase extra) (senderOf e)
                (sender_in_text e)).
  pose proof (brandPoints_mono (textOf e) (Str.toLowerCase extra) (senderOf e)
                (sender_in_text e)).
  split; lia.
Qed.

(** C3 as claimed fails: text appended to the sender puts the brand into
    the domain; the shortener rule (20) starts to match, the brand rule
    (30) stops, and the score falls from 30 to 20. *)
Lemma sender_extension_lowers_score :
  extendsEmail brandMail brandMailExtended /\
  additionalRule brandMail brandMailExtended /\
  getEnhancedFallbackScore (emailData_of brandMail) = Normal 30 /\
  getEnhancedFallbackScore (emailData_of brandMailExtended) = Normal 20 /\
  ~ monotoneUnderExtension.
Proof.
  assert (Hext : extendsEmail brandMail brandMailExtended).
  { exists ".paypal.tinyurl.com", "", "". repeat split. }
  assert (Hadd : additionalRule brandMail brandMailExtended).
  { exists 7%nat. split; vm_compute; reflexivity. }
  assert (H0 : getEnhancedFallbackScore (emailData_of brandMail) = Normal 30)
    by (vm_compute; reflexivity).
  assert (H1 : getEnhancedFallbackScore (emailData_of brandMailExtended) = Normal 20)
    by (vm_compute; reflexivity).
  repeat split; try assumption.
  intros H. specialize (H _ _ _ _ Hext Hadd H0 H1). lia.
Qed.

(** A rule can also match across two fields, and text appended to the
    first of them then breaks the match: here the subject grows, the
    grammar rule (10) starts to match and the account rule (40) stops. *)
Example subject_extension_lowers_score :
  let e := mkEmail None (Some "Please verify your") (Some "account now") in
  let e' := mkEmail None (Some "Please verify your details, kindly") (Some "account now") in
  extendsEmail e e' /\ additionalRule e e' /\
  getEnhancedFallbackScore (emailData_of e) = Normal 40 /\
  getEnhancedFallbackScore (emailData_of e') = Normal 10.
Proof.
  cbv zeta. split; [exists "", " details, kindly", ""; repeat split|].
  split; [exists 9%nat; split; vm_compute; reflexivity|].
  split; vm_compute; reflexivity.
Qed.

(* ================================================================== *)
(** ** Adequacy of the matcher

    [Re.test] decides the presence of a substring in the language of the
    pattern, the language being given by the usual rules. *)

Section Adequacy.

Variable ic : bool.

Lemma append_nil_r (s : string) : (s ++ "")%string = s.
Proof. induction s as [|x s IH]; cbn; [reflexivity | now rewrite IH]. Qed.

Lemma append_eq_nil (a b : string) : (a ++ b)%string = "" -> a = "" /\ b = "".
Proof. destruct a; cbn; [auto | discriminate]. Qed.

Lemma nullable_spec (r : Re.regex) : Re.nullable r = true <-> Matches ic r "".
Proof.
  split.
  - induction r; cbn; intros H; try discriminate.
    + constructor.
    + apply andb_true_iff in H. destruct H as [H1 H2].
      change "" with ("" ++ "")%string. constructor; auto.
    + apply orb_true_iff in H. destruct H; [apply MAltL | apply MAltR]; auto.
    + constructor.
  - induction r; cbn; intros H; inversion H; subst; auto.
    + match goal with E : (_ ++ _)%string = "" |- _ => apply append_eq_nil in E; destruct E end.
      subst. apply andb_true_iff. split; auto.
    + apply orb_true_iff. left. auto.
    + apply orb_true_iff. right. auto.
Qed.

Lemma Matches_Empty (s : string) : ~ Matches ic Re.Empty s.
Proof. intros H. inversion H. Qed.

Lemma cat_spec (r1 r2 : Re.regex) (s : string) :
  Matches ic (Re.cat r1 r2) s <-> Matches ic (Re.Cat r1 r2) s.
Proof.
  assert (HE1 : forall r, Matches ic (Re.Cat Re.Empty r) s -> False).
  { intros r H. inversion H; subst. eapply Matches_Empty; eauto. }
  assert (HE2 : forall r, Matches ic (Re.Cat r Re.Empty) s -> False).
  { intros r H. inversion H; subst. eapply Matches_Empty; eauto. }
  assert (HEps : forall r, Matches ic r s <-> Matches ic (Re.Cat Re.Eps r) s).
  { intros r. split; intros H.
    - change s with ("" ++ s)%string. constructor; [constructor | exact H].
    - inversion H; subst.
      match goal with E : Matches ic Re.Eps _ |- _ => inversion E; subst end.
      assumption. }
  destruct r1, r2; cbn [Re.cat];
    try tauto;
    try (split; intros H; exfalso; solve [eapply Matches_Empty; eauto | eapply HE1; eauto | eapply HE2; eauto]);
    try apply HEps.
Qed.

Lemma alt_spec (r1 r2 : Re.regex) (s : string) :
  Matches ic (Re.alt r1 r2) s <-> Matches ic (Re.Alt r1 r2) s.
Proof.
  assert (HL : forall r, Matches ic r s <-> Matches ic (Re.Alt Re.Empty r) s).
  { intros r. split; intros H; [apply MAltR; exact H|].
    inversion H; subst; [exfalso; eapply Matches_Empty; eauto | assumption]. }
  assert (HR : forall r, Matches ic r s <-> Matches ic (Re.Alt r Re.Empty) s).
  { intros r. split; intros H; [apply MAltL; exact H|].
    inversion H; subst; [assumption | exfalso; eapply Matches_Empty; eauto]. }
  destruct r1, r2; cbn [Re.alt]; try tauto; try apply HL; try apply HR.
Qed.

(** A non-empty word of a starred pattern begins with a non-empty word of
    the pattern. *)
Lemma star_cons (r : Re.regex) (x : ascii) (s : string) :
  Matches ic (Re.Star r) (String x s) ->
  exists s1 s2, s = (s1 ++ s2)%string /\ Matches ic r (String x s1) /\ Matches ic (Re.Star r) s2.
Proof.
  intros H. remember (Re.Star r) as r0 eqn:Hr. remember (String x s) as t eqn:Ht.
  revert x s Ht.
  induction H; intros y t Ht; try discriminate.
  injection Hr as ->.
  destruct s1 as [|z s1].
  - cbn in Ht. apply IHMatches2; [reflexivity | exact Ht].
  - cbn in Ht. injection Ht as <- <-. eauto.
Qed.

Lemma deriv_spec (x : ascii) (r : Re.regex) :
  forall s, Matches ic (Re.deriv ic x r) s <-> Matches ic r (String x s).
Proof.
  induction r as [| |c|p|r1 IH1 r2 IH2|r1 IH1 r2 IH2|r IH]; intros s; cbn [Re.deriv].
  - split; intros H; inversion H.
  - split; intros H; inversion H.
  - destruct (Re.sameChar ic c x) eqn:Hc; split; intros H.
    + inversion H; subst. constructor. exact Hc.
    + inversion H; subst. constructor.
    + inversion H.
    + inversion H; subst. congruence.
  - destruct (p x) eqn:Hp; split; intros H.
    + inversion H; subst. constructor. exact Hp.
    + inversion H; subst. constructor.
    + inversion H.
    + inversion H; subst. congruence.
  - assert (Hcat : Matches ic (Re.Cat (Re.deriv ic x r1) r2) s ->
                   Matches ic (Re.Cat r1 r2) (String x s)).
    { intros H. inversion H; subst.
      change (String x (s1 ++ s2)) with (String x s1 ++ s2)%string.
      constructor; [apply IH1|]; assumption. }
    destruct (Re.nullable r1) eqn:Hn.
    + rewrite alt_spec. split; intros H.
      * inversion H; subst.
        -- apply Hcat. apply cat_spec. assumption.
        -- change (String x s) with ("" ++ String x s)%string.
           constructor; [apply nullable_spec; exact Hn | apply IH2; assumption].
      * inversion H; subst. destruct s1 as [|y s1]; cbn in *.
        -- subst. apply MAltR. apply IH2. assumption.
        -- match goal with E : String _ _ = String _ _ |- _ => injection E as -> <- end.
           apply MAltL. apply cat_spec. constructor; [apply IH1|]; assumption.
    + rewrite cat_spec. split; [exact Hcat|]. intros H.
      inversion H; subst. destruct s1 as [|y s1]; cbn in *.
      * subst. match goal with E : Matches ic r1 "" |- _ => apply nullable_spec in E end.
        congruence.
      * match goal with E : String _ _ = String _ _ |- _ => injection E as -> <- end.
        constructor; [apply IH1|]; assumption.
  - rewrite alt_spec. split; intros H; inversion H; subst.
    + apply MAltL. apply IH1. assumption.
    + apply MAltR. apply IH2. assumption.
    + apply MAltL. apply IH1. assumption.
    + apply MAltR. apply IH2. assumption.
  - rewrite cat_spec. split; intros H.
    + inversion H; subst.
      change (String x (s1 ++ s2)) with (String x s1 ++ s2)%string.
      constructor; [apply IH|]; assumption.
    + apply star_cons in H. destruct H as (s1 & s2 & -> & H1 & H2).
      constructor; [apply IH|]; assumption.
Qed.

Lemma matchHere_spec (s : string) :
  forall r, Re.matchHere ic r s = true <->
            exists m q, s = (m ++ q)%string /\ Matches ic r m.
Proof.
  induction s as [|x s IH]; intros r; cbn [Re.matchHere].
  - rewrite orb_false_r, nullable_spec. split.
    + intros H. exists "", "". auto.
    + intros (m & q & E & H). symmetry in E. apply append_eq_nil in E.
      destruct E; subst. exact H.
  - rewrite orb_true_iff, nullable_spec, IH. split.
    + intros [H|(m & q & -> & H)].
      * exists "", (String x s). auto.
      * exists (String x m), q. split; [reflexivity | apply deriv_spec; exact H].
    + intros (m & q & E & H). destruct m as [|y m]; [left; exact H|].
      cbn in E. injection E as <- ->. right. exists m, q.
      split; [reflexivity | apply deriv_spec; exact H].
Qed.

(** [Re.test] holds exactly when the string has a substring in the
    language of the pattern. *)
Theorem test_spec (r : Re.regex) (s : string) :
  Re.test ic r s = true <->
  exists p m q, s = (p ++ m ++ q)%string /\ Matches ic r m.
Proof.
  induction s as [|x s IH]; cbn [Re.test].
  - rewrite orb_false_r, matchHere_spec. split.
    + intros (m & q & E & H). exists "", m, q. auto.
    + intros (p & m & q & E & H). symmetry in E. apply append_eq_nil in E.
      destruct E as [-> E]. exists m, q. auto.
  - rewrite orb_true_iff, matchHere_spec, IH. split.
    + intros [(m & q & E & H)|(p & m & q & -> & H)].
      * exists "", m, q. auto.
      * exists (String x p), m, q. auto.
    + intros (p & m & q & E & H). destruct p as [|y p].
      * left. exists m, q. auto.
      * cbn in E. injection E as <- ->. right. exists p, m, q. auto.
Qed.

End Adequacy.

(* ================================================================== *)
(** ** The entry point without the remote call *)

Lemma round_nat (k : nat) :
  (k <= 100)%nat -> Num.round (Js.Z2F (Z.of_nat k)) = Js.Z2F (Z.of_nat k).
Proof.
  intros Hk.
  do 101 (destruct k as [|k]; [vm_compute; reflexivity|]).
  lia.
Qed.

Lemma round_int (z : Z) : 0 <= z <= 100 -> Num.round (Js.Z2F z) = Js.Z2F z.
Proof.
  intros Hz. rewrite <- (Z2Nat.id z) by lia. apply round_nat. lia.
Qed.

Lemma assess_local (mlScore mlConfidence : float) :
  exists t : string, snd (fst (assess mlScore mlConfidence false)) = Normal t.
Proof.
  unfold assess.
  destruct (Js.geb mlScore 65); [eexists; reflexivity|].
  destruct (Js.geb mlScore 35); eexists; reflexivity.
Qed.

(** Without a usable key the entry point makes no request and returns the
    pattern score, an integer of [0,100], with the risk level of its band. *)
Lemma analyzeEmail_local (fuel : nat) (net : Network) (e : EmailInput)
    (d : Detector) (log : list Request) :
  remoteEnabled d = false ->
  exists a : Analysis,
    analyzeEmail fuel net (emailData_of e) d log = Some (Normal a, d, log) /\
    score a = Js.Z2F (Z.min (rulePoints (textOf e) (senderOf e)) 100) /\
    riskLevel a = riskBand (Z.min (rulePoints (textOf e) (senderOf e)) 100) /\
    usedAI (details a) = false /\
    reasons a = firstn 5 (reasonsBeforeSlice (score a) false (textOf e) (senderOf e)).
Proof.
  intros Hd.
  set (v := Z.min (rulePoints (textOf e) (senderOf e)) 100).
  assert (Hv : 0 <= v <= 100).
  { pose proof (rulePoints_range (textOf e) (senderOf e)). subst v. lia. }
  unfold analyzeEmail, analyzeEmailBody.
  rewrite destructure_email. cbn [bindC emailTextOf Js.ToString subjectPreview Js.asString].
  unfold chooseScore. rewrite Hd.
  unfold fallbackScore. rewrite getEnhancedFallbackScore_email. fold v. cbn [bindC].
  pose proof (assess_riskLevel (Js.Z2F v) 0 false) as Hrisk.
  destruct (assess_local (Js.Z2F v) 0) as [t Ht].
  destruct (assess (Js.Z2F v) 0 false) as [[rl conf] icon].
  cbn [fst snd] in Hrisk, Ht. subst rl conf. cbn [bindC].
  rewrite generateReasons_email. cbn [bindC].
  eexists. split; [reflexivity|]. cbn [score riskLevel details usedAI reasons].
  rewrite (round_int Hv), (riskLevelOf_int Hv). auto.
Qed.

(* ================================================================== *)
(** ** Runs of the entry point with a remote model *)

(** The first model is gone and the second one answers: the call returns
    the second model's prediction and leaves the index at 1. *)
Example failover_to_second_model :
  let net : Network := fun log _ =>
    match log with
    | [] => Response 410 None
    | _ => Response 200 (Some (JArr [JArr [prediction "LABEL_1" 0.5; prediction "LABEL_0" 0.5]]))
    end in
  exists log',
    getMLPrediction 3 net "hello" (detectorAt 0) []
    = Some (Normal {| ml_score := 50; ml_confidence := 50; ml_label := "PHISHING" |},
            detectorAt 1, log') /\
    List.length log' = 2%nat.
Proof. cbv zeta. eexists. split; [vm_compute; reflexivity | reflexivity]. Qed.

(** The defect of the normalisation seen from the entry point: a mail that
    the model calls ham with score 0.75 is reported as high risk, with a
    confidence text of 25% phishing. *)
Example ham_answer_is_high_risk :
  exists a log',
    analyzeEmail 3 (fun _ _ => Response 200 (Some (JArr [prediction "ham" 0.75])))
      (emailData_of (mkEmail (Some "newsletter@company.com") (Some "Weekly update")
                             (Some "Here's what's new this week.")))
      (detectorAt 0) []
    = Some (Normal a, detectorAt 0, log') /\
    score a = 75%float /\ riskLevel a = high /\
    confidence a = "🤖 AI: 25% phishing" /\
    hd_error (reasons a) = Some reasonAIPhishing.
Proof. eexists. eexists. split; [vm_compute; reflexivity | repeat split]. Qed.

(* ================================================================== *)
(** ** The probe of the models *)

Lemma notOk_app (net : ProbeNetwork) (reqs1 reqs2 : list ProbeRequest) :
  forall log,
    notOk net log (reqs1 ++ reqs2) <->
    notOk net log reqs1 /\ notOk net (log ++ reqs1) reqs2.
Proof.
  induction reqs1 as [|r reqs1 IH]; intros log; cbn [notOk app].
  - rewrite app_nil_r. tauto.
  - rewrite IH, <- app_assoc. cbn [app]. tauto.
Qed.

(** What the loop does from index [i] on: it stops at the first model of
    [rest] whose probe succeeds and stores its index, or it probes all of
    them and throws with the detector untouched. *)
Lemma testModels_spec (net : ProbeNetwork) (d : Detector) (rest : list Model) :
  forall (i : nat) (log : list ProbeRequest),
    match testModels net d i rest log with
    | (Normal _, d', log') =>
        exists (j : nat) (m : Model),
          nth_error rest j = Some m /\
          d' = setIndex d (i + j) /\
          log' = log ++ probesFor d (firstn (S j) rest) /\
          notOk net log (probesFor d (firstn j rest)) /\
          isOkOutcome (net (log ++ probesFor d (firstn j rest)) (probeFor d m)) = true
    | (Throw e, d', log') =>
        e = unavailable /\ d' = d /\
        log' = log ++ probesFor d rest /\
        notOk net log (probesFor d rest)
    | (Outside, _, _) => False
    end.
Proof.
  induction rest as [|m rest IH]; intros i log; cbn [testModels].
  - cbn. rewrite app_nil_r. auto.
  - assert (Hnext : isOkOutcome (net log (probeFor d m)) = false ->
              match testModels net d (S i) rest (log ++ [probeFor d m]) with
              | (Normal _, d', log') =>
                  exists (j : nat) (m0 : Model),
                    nth_error (m :: rest) j = Some m0 /\
                    d' = setIndex d (i + j) /\
                    log' = log ++ probesFor d (firstn (S j) (m :: rest)) /\
                    notOk net log (probesFor d (firstn j (m :: rest))) /\
                    isOkOutcome (net (log ++ probesFor d (firstn j (m :: rest)))
                                     (probeFor d m0)) = true
              | (Throw e, d', log') =>
                  e = unavailable /\ d' = d /\
                  log' = log ++ probesFor d (m :: rest) /\
                  notOk net log (probesFor d (m :: rest))
              | (Outside, _, _) => False
              end).
    { intros Hfail. specialize (IH (S i) (log ++ [probeFor d m])).
      destruct (testModels net d (S i) rest (log ++ [probeFor d m])) as [[[u|e|] d'] log'].
      - destruct IH as (j & m0 & Hj & Hd & Hlog & Hno & Hok).
        exists (S j), m0. cbn [nth_error firstn probesFor map notOk].
        rewrite <- app_assoc in Hlog, Hok. cbn [app] in Hlog, Hok.
        repeat split; try assumption.
        rewrite Hd. f_equal. lia.
      - destruct IH as (He & Hd & Hlog & Hno).
        cbn [probesFor map notOk]. rewrite <- app_assoc in Hlog.
        repeat split; assumption.
      - exact IH. }
    destruct (net log (probeFor d m)) as [|status body] eqn:Hnet.
    + apply Hnext. reflexivity.
    + cbn [isOkOutcome] in Hnext.
      destruct (ok status) eqn:Hok.
      * exists 0%nat, m. cbn [nth_error firstn probesFor map notOk].
        rewrite Nat.add_0_r, app_nil_r, Hnet. cbn [isOkOutcome].
        repeat split; auto.
      * destruct (Nat.eqb status 410); apply Hnext; reflexivity.
Qed.

(** X1. When [testAPIConnection] returns, [currentModelIndex] is the
    position of the first model, in list order, whose probe was answered
    with a 2xx status: the probes of all earlier models failed, one probe
    went to each model up to that position and none beyond it, and nothing
    else in the detector changed. *)
Theorem probe_selects_first_working_model (net : ProbeNetwork) (d d' : Detector)
    (log log' : list ProbeRequest) (u : unit) :
  testAPIConnection net d log = (Normal u, d', log') ->
  exists (j : nat) (m : Model),
    nth_error (models d) j = Some m /\
    d' = setIndex d j /\
    validIndex d' /\
    log' = log ++ probesFor d (firstn (S j) (models d)) /\
    notOk net log (probesFor d (firstn j (models d))) /\
    isOkOutcome (net (log ++ probesFor d (firstn j (models d))) (probeFor d m)) = true.
Proof.
  unfold testAPIConnection. intros H.
  pose proof (testModels_spec net d (models d) 0 log) as Hs. rewrite H in Hs.
  destruct Hs as (j & m & Hj & Hd & Hlog & Hno & Hok).
  exists j, m. cbn [Nat.add] in Hd. repeat split; try assumption.
  subst d'. unfold validIndex. cbn. apply nth_error_Some. congruence.
Qed.

Lemma probe_selects_first_working_model_witness :
  testAPIConnection secondAnswers (detectorAt 0) []
  = (Normal tt, detectorAt 1, probesFor (detectorAt 0) configuredModels) /\
  exists (j : nat) (m : Model),
    nth_error configuredModels j = Some m /\ detectorAt 1 = setIndex (detectorAt 0) j.
Proof.
  split; [reflexivity|].
  destruct (@probe_selects_first_working_model secondAnswers (detectorAt 0) (detectorAt 1) []
              (probesFor (detectorAt 0) configuredModels) tt eq_refl)
    as (j & m & Hj & Hd & _).
  exists j, m. split; assumption.
Defined.

(** X2. [testAPIConnection] throws exactly when the probe of every
    configured model fails (a rejected request or a status outside
    200-299); it has then probed each model once, in list order, the
    exception is [unavailable], and the detector is unchanged. *)
Theorem probe_fails_when_no_model_answers (net : ProbeNetwork) (d : Detector)
    (log : list ProbeRequest) :
  notOk net log (probesFor d (models d)) <->
  testAPIConnection net d log = (Throw unavailable, d, log ++ probesFor d (models d)).
Proof.
  unfold testAPIConnection.
  pose proof (testModels_spec net d (models d) 0 log) as Hs.
  split.
  - intros Hno.
    destruct (testModels net d 0 (models d) log) as [[[u|e|] d'] log'].
    + exfalso. destruct Hs as (j & m & Hj & _ & _ & _ & Hok).
      rewrite <- (firstn_skipn j (models d)) in Hno.
      rewrite (skipn_nth_error _ _ Hj) in Hno.
      unfold probesFor in Hno. rewrite map_app in Hno.
      apply notOk_app in Hno. destruct Hno as [_ Hno].
      cbn [map notOk] in Hno. destruct Hno as [Hno _].
      unfold probesFor in Hok. congruence.
    + destruct Hs as (-> & -> & -> & _). reflexivity.
    + destruct Hs.
  - intros H. rewrite H in Hs. tauto.
Qed.

Lemma isOk_step (net1 net2 : ProbeNetwork) (log : list ProbeRequest) (req : ProbeRequest) :
  isOkOutcome (net1 log req) = isOkOutcome (net2 log req) ->
  (exists s1 b1 s2 b2, net1 log req = Response s1 b1 /\ net2 log req = Response s2 b2 /\
                       ok s1 = true /\ ok s2 = true) \/
  (isOkOutcome (net1 log req) = false /\ isOkOutcome (net2 log req) = false).
Proof.
  destruct (net1 log req) as [|s1 b1], (net2 log req) as [|s2 b2]; cbn; intros H;
    try (right; split; congruence); try (right; split; [reflexivity | congruence]).
  destruct (ok s1) eqn:H1.
  - left. exists s1, b1, s2, b2. auto.
  - right. split; congruence.
Qed.

Lemma testModels_fail_step (net : ProbeNetwork) (d : Detector) (i : nat) (m : Model)
    (rest : list Model) (log : list ProbeRequest) :
  isOkOutcome (net log (probeFor d m)) = false ->
  testModels net d i (m :: rest) log = testModels net d (S i) rest (log ++ [probeFor d m]).
Proof.
  cbn [testModels]. destruct (net log (probeFor d m)) as [|status body]; cbn; [reflexivity|].
  intros ->. destruct (Nat.eqb status 410); reflexivity.
Qed.

(** X3. The probe looks at nothing but whether each answer is a 2xx
    response: two networks that agree on that give the same completion, the
    same detector and the same probes.  In particular a 410, a 503 and a
    request that gets no response are all handled alike. *)
Theorem probe_depends_on_ok_only (net1 net2 : ProbeNetwork) (d : Detector)
    (log : list ProbeRequest) :
  (forall l r, isOkOutcome (net1 l r) = isOkOutcome (net2 l r)) ->
  testAPIConnection net1 d log = testAPIConnection net2 d log.
Proof.
  intros Hagree. unfold testAPIConnection. generalize 0%nat as i. revert log.
  induction (models d) as [|m rest IH]; intros log i; [reflexivity|].
  destruct (isOk_step net1 net2 log (probeFor d m) (Hagree _ _))
    as [(s1 & b1 & s2 & b2 & H1 & H2 & Hk1 & Hk2) | [H1 H2]].
  - cbn [testModels]. rewrite H1, H2, Hk1, Hk2. reflexivity.
  - rewrite !testModels_fail_step by assumption. apply IH.
Qed.

Lemma probe_depends_on_ok_only_witness :
  (forall l r, isOkOutcome (allGoneProbe l r) = isOkOutcome (noResponse l r)) /\
  testAPIConnection allGoneProbe (detectorAt 0) []
  = testAPIConnection noResponse (detectorAt 0) [].
Proof.
  split; [reflexivity|].
  apply (@probe_depends_on_ok_only allGoneProbe noResponse (detectorAt 0) []).
  reflexivity.
Defined.

(* ================================================================== *)
(** ** Start-up *)

Lemma loadApiKey_cases (stored : JsVal) (d : Detector) :
  (Js.truthy stored = false /\ loadApiKey stored d = Normal (setKey d None)) \/
  (exists k, stored = JStr k /\ Str.isEmpty k = false /\
             loadApiKey stored d = Normal (setKey d (Some k))) \/
  (Js.truthy stored = true /\ (forall k, stored <> JStr k) /\ loadApiKey stored d = Outside).
Proof.
  unfold loadApiKey. destruct (Js.truthy stored) eqn:Ht; [|auto].
  right. destruct stored as [| |b|x|s|l|ps]; try discriminate Ht.
  3:{ left. exists s. cbn in Ht. apply negb_true_iff in Ht. auto. }
  all: right; split; [reflexivity|]; split; [intros k; discriminate | reflexivity].
Qed.

Lemma keyMissing_setKey (d : Detector) (k : string) :
  Str.isEmpty k = false -> keyMissing (setKey d (Some k)) = false.
Proof.
  intros H. unfold keyMissing. cbn. rewrite H. cbn.
  destruct k; [discriminate | reflexivity].
Qed.

(** X4. With a stored key that is absent, falsy or a string,
    [loadModel] returns without an exception.  When it ends with
    [modelLoaded] set, the stored key is a non-empty string, now held by
    the detector, the remote mode is enabled, and [currentModelIndex] is
    the position of the first configured model whose probe succeeded.  When
    it ends with [modelLoaded] cleared, the remote mode is disabled and the
    index is the one it started with: either there was no usable key, and
    then no probe was sent, or the probe of every configured model
    failed. *)
Theorem loadModel_string_key_outcome (stored : JsVal) (net : ProbeNetwork)
    (d d' : Detector) (log log' : list ProbeRequest) (c : Completion unit) :
  Js.truthy stored = false \/ (exists k, stored = JStr k) ->
  loadModel stored net d log = (c, d', log') ->
  c = Normal tt /\
  (modelLoaded d' = true ->
     remoteEnabled d' = true /\ validIndex d' /\ models d' = models d /\
     exists (k : string) (j : nat) (m : Model),
       stored = JStr k /\ apiKey d' = Some k /\
       nth_error (models d) j = Some m /\ currentModelIndex d' = j /\
       notOk net log (probesFor d' (firstn j (models d))) /\
       isOkOutcome (net (log ++ probesFor d' (firstn j (models d))) (probeFor d' m)) = true) /\
  (modelLoaded d' = false ->
     remoteEnabled d' = false /\ currentModelIndex d' = currentModelIndex d /\
     ((apiKey d' = None /\ log' = log) \/
      (notOk net log (probesFor d' (models d)) /\ log' = log ++ probesFor d' (models d)))).
Proof.
  unfold loadModel. intros Hstored H.
  destruct (loadApiKey_cases stored d)
    as [[Ht Hk] | [(k & Hs & Hne & Hk) | (Ht & Hns & Hk)]]; rewrite Hk in H.
  - cbn in H. injection H as <- <- <-.
    repeat split; try discriminate; try reflexivity.
    left. split; reflexivity.
  - rewrite (@keyMissing_setKey d k Hne) in H.
    pose proof (testModels_spec net (setKey d (Some k)) (models d) 0 log) as Hs'.
    unfold testAPIConnection in H. cbn [models setKey] in H.
    destruct (testModels net (setKey d (Some k)) 0 (models d) log) as [[[u|e|] d2] log2].
    + injection H as <- <- <-.
      destruct Hs' as (j & m & Hj & Hd & Hlog & Hno & Hok). subst d2.
      repeat split; try discriminate; try reflexivity.
      * unfold remoteEnabled. cbn. rewrite Hne. reflexivity.
      * unfold validIndex. cbn. apply nth_error_Some. congruence.
      * exists k, j, m. repeat split; assumption.
    + injection H as <- <- <-.
      destruct Hs' as (_ & -> & Hlog & Hno).
      repeat split; try discriminate; try reflexivity.
      right. split; assumption.
    + destruct Hs'.
  - exfalso. destruct Hstored as [Hf | (k & Hs)]; [congruence | exact (Hns _ Hs)].
Qed.

Lemma loadModel_string_key_outcome_witness :
  loadModel (JStr "hf_key") secondAnswers newDetector []
  = (Normal tt, detectorAt 1, probesFor (detectorAt 0) configuredModels) /\
  Normal tt = Normal tt.
Proof.
  split; [reflexivity|].
  exact (proj1 (@loadModel_string_key_outcome (JStr "hf_key") secondAnswers newDetector
                  (detectorAt 1) [] (probesFor (detectorAt 0) configuredModels) (Normal tt)
                  (or_intror (ex_intro _ "hf_key" eq_refl)) eq_refl)).
Defined.

(** X5. Without a stored key - none at all, or an empty string -
    [loadModel] sends no probe and leaves the detector without a key and
    with the remote mode off; every later [analyzeEmail], whatever the
    network would answer, then sends no request, leaves the detector as it
    is and reports a result that did not use the remote model. *)
Theorem no_key_no_traffic (stored : JsVal) (pnet : ProbeNetwork) (d : Detector)
    (plog : list ProbeRequest) :
  Js.truthy stored = false ->
  exists d' : Detector,
    loadModel stored pnet d plog = (Normal tt, d', plog) /\
    apiKey d' = None /\ modelLoaded d' = false /\
    forall (fuel : nat) (net : Network) (e : EmailInput) (log : list Request),
    exists a : Analysis,
      analyzeEmail fuel net (emailData_of e) d' log = Some (Normal a, d', log) /\
      usedAI (details a) = false /\
      score a = Js.Z2F (Z.min (rulePoints (textOf e) (senderOf e)) 100).
Proof.
  intros Ht. exists (setLoaded (setKey d None) false).
  split; [|split; [reflexivity|split; [reflexivity|]]].
  - unfold loadModel, loadApiKey. rewrite Ht. reflexivity.
  - intros fuel net e log.
    destruct (@analyzeEmail_local fuel net e (setLoaded (setKey d None) false) log eq_refl)
      as (a & Ha & Hscore & _ & Hused & _).
    exists a. auto.
Qed.

Lemma no_key_no_traffic_witness :
  Js.truthy (JStr "") = false /\
  exists d' : Detector,
    loadModel (JStr "") allGoneProbe newDetector [] = (Normal tt, d', []) /\
    apiKey d' = None.
Proof.
  split; [reflexivity|].
  destruct (@no_key_no_traffic (JStr "") allGoneProbe newDetector [] eq_refl)
    as (d' & H & Hk & _).
  exists d'. split; assumption.
Defined.

(* ================================================================== *)
(** ** The requests of the remote call *)

Lemma substring0_length (n : nat) (s : string) :
  (String.length (Str.substring0 n s) <= n)%nat.
Proof.
  unfold Str.substring0. revert s.
  induction n as [|n IH]; intros [|c s]; cbn; try lia.
  specialize (IH s). lia.
Qed.

Lemma In_firstn {A} (n : nat) (l : list A) (x : A) : In x (firstn n l) -> In x l.
Proof.
  revert l. induction n as [|n IH]; intros [|y l]; cbn; try tauto.
  intros [H|H]; [auto | right; apply IH; exact H].
Qed.

Lemma In_skipn {A} (n : nat) (l : list A) (x : A) : In x (skipn n l) -> In x l.
Proof.
  revert l. induction n as [|n IH]; intros [|y l]; cbn; try tauto.
  intros H. right. apply IH. exact H.
Qed.

Lemma requestsFrom_In (d : Detector) (text : string) (k : nat) (r : Request) :
  In r (requestsFrom d text k) ->
  exists m, In m (models d) /\ r = requestFor d m text.
Proof.
  unfold requestsFrom. intros H. apply in_map_iff in H.
  destruct H as (m & <- & Hm). exists m. split; [|reflexivity].
  eapply In_skipn, In_firstn. exact Hm.
Qed.

(** X7. Every request a call of [getMLPrediction] issues goes to the URL
    of a configured model, carries the key as a bearer token and the first
    500 characters of the text - never more - and asks the model to wait
    and not to use its cache. *)
Theorem remote_requests_are_bounded (fuel : nat) (net : Network) (text : string)
    (d d' : Detector) (log log' : list Request) (c : Completion MLResult) :
  getMLPrediction fuel net text d log = Some (c, d', log') ->
  exists reqs : list Request,
    log' = log ++ reqs /\
    forall r, In r reqs ->
      req_inputs r = Str.substring0 500 text /\
      (String.length (req_inputs r) <= 500)%nat /\
      req_authorization r = bearer (apiKey d) /\
      req_wait_for_model r = true /\ req_use_cache r = false /\
      exists m, In m (models d) /\ req_url r = url m.
Proof.
  intros H. pose proof (call_shape _ _ _ _ _ H) as Hs. cbn in Hs.
  destruct Hs as (k & Hlog & _).
  exists (requestsFrom d text k). split; [exact Hlog|].
  intros r Hr. apply requestsFrom_In in Hr. destruct Hr as (m & Hm & ->).
  cbn. repeat split; [apply substring0_length | eauto].
Qed.

Lemma remote_requests_are_bounded_witness :
  getMLPrediction 3 allGone "hello" (detectorAt 0) []
  = Some (Throw allDeprecated, detectorAt 0,
          map (fun m => requestFor (detectorAt 0) m "hello") configuredModels) /\
  exists reqs : list Request,
    map (fun m => requestFor (detectorAt 0) m "hello") configuredModels = [] ++ reqs /\
    forall r, In r reqs -> (String.length (req_inputs r) <= 500)%nat.
Proof.
  split; [reflexivity|].
  destruct (@remote_requests_are_bounded 3 allGone "hello" (detectorAt 0) (detectorAt 0) []
              (map (fun m => requestFor (detectorAt 0) m "hello") configuredModels)
              (Throw allDeprecated) eq_refl) as (reqs & Hlog & Hall).
  exists reqs. split; [exact Hlog|].
  intros r Hr. apply (Hall r Hr).
Defined.

(** X6. A valid index stays valid: after a call of [getMLPrediction] that
    started with [currentModelIndex] inside the model list, the index is
    inside the list again, the list, the key and [modelLoaded] are what
    they were, and the call has issued at least one request - it did not
    fail for want of a model to ask. *)
Theorem valid_index_is_kept (fuel : nat) (net : Network) (text : string)
    (d d' : Detector) (log log' : list Request) (c : Completion MLResult) :
  validIndex d ->
  getMLPrediction fuel net text d log = Some (c, d', log') ->
  validIndex d' /\
  models d' = models d /\ apiKey d' = apiKey d /\ modelLoaded d' = modelLoaded d /\
  exists req rest, log' = log ++ req :: rest.
Proof.
  unfold validIndex. intros Hv H.
  pose proof (call_shape _ _ _ _ _ H) as Hs. cbn in Hs.
  destruct Hs as (k & Hlog & Hk & H1 & Hm & Hkey & Hld & Hcase).
  specialize (H1 Hv). rewrite Hm.
  assert (Hreq : exists req rest, requestsFrom d text k = req :: rest).
  { pose proof (requestsFrom_length d text Hk) as Hlen.
    destruct (requestsFrom d text k) as [|req rest]; [cbn in Hlen; lia | eauto]. }
  destruct Hreq as (req & rest & Hreq). rewrite Hreq in Hlog.
  repeat split; try assumption; [|eauto].
  destruct Hcase as [(_ & _ & _ & ->) | (_ & _ & ->)]; lia.
Qed.

Lemma valid_index_is_kept_witness :
  validIndex (detectorAt 1) /\ validIndex (detectorAt 0).
Proof.
  assert (Hv : validIndex (detectorAt 1)) by (unfold validIndex; cbn; lia).
  split; [exact Hv|].
  exact (proj1 (@valid_index_is_kept 3 allGone "hello" (detectorAt 1) (detectorAt 0) []
                  [requestFor (detectorAt 1)
                     {| name := "SMS Phishing Detector";
                        url := "https://api-inference.huggingface.co/models/mrm8488/bert-tiny-finetuned-sms-phishing-detection";
                        type := "classification" |} "hello"]
                  (Throw allDeprecated) Hv eq_refl)).
Defined.

Lemma firstn_S_nth_error {A} (l : list A) (j : nat) (a : A) :
  nth_error l j = Some a -> firstn (S j) l = firstn j l ++ [a].
Proof.
  revert l. induction j as [|j IH]; intros [|x l] H; cbn in H; try discriminate.
  - injection H as ->. reflexivity.
  - cbn [firstn app]. rewrite <- (IH l H). reflexivity.
Qed.

(** X9. Sticky routing: when a call of [getMLPrediction] during which no
    other call changes the index ends otherwise than by exhaustion - with
    a prediction or with an error - after at least one request, the index
    it leaves designates the model of its last request; so the next call
    starts with the model that answered last. *)
Theorem index_follows_last_request_when_alone (fuel : nat) (others : Interference)
    (net : Network) (text : string)
    (d d' : Detector) (log log' : list Request) (c : Completion MLResult) :
  quiet others ->
  validIndex d ->
  getMLPredictionShared fuel others net text d log = Some (c, d', log') ->
  c <> Throw allDeprecated ->
  exists (m : Model) (earlier : list Request),
    nth_error (models d') (currentModelIndex d') = Some m /\
    log' = earlier ++ [requestFor d' m text] /\
    forall text2 log2, firstOutcome net text2 d' log2 = Some (net log2 (requestFor d' m text2)).
Proof.
  unfold validIndex. intros Hq Hv H Hc. rewrite (@shared_quiet others net text fuel Hq) in H.
  pose proof (call_shape _ _ _ _ _ H) as Hs. cbn in Hs.
  destruct Hs as (k & Hlog & Hk & H1 & Hm & Hkey & Hld & Hcase).
  specialize (H1 Hv).
  destruct Hcase as [(Hc' & _) | (_ & _ & Hidx)]; [congruence|].
  destruct (nth_error (models d) (currentModelIndex d + (k - 1))) as [m|] eqn:Hn.
  2:{ apply nth_error_None in Hn. lia. }
  assert (Hreq : requestFor d' m text = requestFor d m text).
  { unfold requestFor. rewrite Hkey. reflexivity. }
  exists m, (log ++ requestsFrom d text (k - 1)).
  split; [rewrite Hm, Hidx; exact Hn|]. split.
  - rewrite Hlog, Hreq, <- app_assoc. f_equal.
    unfold requestsFrom. replace k with (S (k - 1)) at 1 by lia.
    rewrite (@firstn_S_nth_error _ _ (k - 1) m).
    + rewrite map_app. reflexivity.
    + rewrite nth_error_skipn. exact Hn.
  - intros text2 log2. unfold firstOutcome. rewrite Hm, Hidx, Hn. reflexivity.
Qed.

Lemma index_follows_last_request_when_alone_witness :
  exists (m : Model) (earlier : list Request),
    nth_error (models (detectorAt 1)) 1 = Some m /\
    List.length earlier = 1%nat.
Proof.
  assert (Hv : validIndex (detectorAt 0)) by (unfold validIndex; cbn; lia).
  pose (net := (fun log _ => match log with
                             | [] => Response 410 None
                             | _ => Response 503 None
                             end) : Network).
  destruct (@index_follows_last_request_when_alone 3 alone net "hello"
              (detectorAt 0) (detectorAt 1) []
              (map (fun m => requestFor (detectorAt 0) m "hello") configuredModels)
              (Throw (Error "API 503")) (fun _ _ => eq_refl) Hv eq_refl ltac:(discriminate))
    as (m & earlier & Hm & Hlog & _).
  exists m, earlier. split; [exact Hm|].
  apply (f_equal (@List.length Request)) in Hlog.
  rewrite length_app in Hlog. cbn in Hlog. lia.
Defined.

(** On a shared detector the index need not designate the last request:
    the call asks the first model and is answered 503, while another call
    has moved the index to 1. *)
Example shared_index_does_not_follow :
  getMLPredictionShared 3 anotherCallAdvances allBusy "hello" (detectorAt 0) []
  = Some (Throw (Error "API 503"), detectorAt 1,
          [requestFor (detectorAt 0) spamDetector "hello"]).
Proof. reflexivity. Qed.

(* ================================================================== *)
(** ** Answers with a positive class, and well-formed answers *)

Lemma find_first {A} (pred : A -> Completion bool) (before after : list A) (a : A) :
  Forall (fun q => pred q = Normal false) before ->
  pred a = Normal true ->
  Js.find pred (before ++ a :: after) = Normal (Some a).
Proof.
  intros Hb Ha. induction Hb as [|q before Hq _ IH]; cbn [app Js.find].
  - rewrite Ha. reflexivity.
  - rewrite Hq. cbn [bindC]. exact IH.
Qed.

(** X10. The first positive-class prediction decides: when the
    predictions before it are read without error and none of them names the
    positive class, and its score is the number [s], [parseMLResult]
    returns the label PHISHING with score and confidence [s * 100],
    whatever the predictions after it say, and whatever the scores of the
    negative-class predictions before it. *)
Theorem first_positive_class_wins (elems before after : list JsVal) (p : JsVal)
    (s : float) :
  predictionsOf elems = before ++ p :: after ->
  Forall (fun q => isSpamPrediction q = Normal false) before ->
  isSpamPrediction p = Normal true ->
  Js.get p "score" = Normal (JNum s) ->
  parseMLResult (JArr elems)
  = Normal {| ml_score := (s * 100)%float;
              ml_confidence := (s * 100)%float;
              ml_label := "PHISHING" |}.
Proof.
  intros Hsplit Hbefore Hp Hscore.
  assert (Hspam : Js.find isSpamPrediction (predictionsOf elems) = Normal (Some p)).
  { rewrite Hsplit. apply find_first; assumption. }
  destruct elems as [|v l].
  { destruct before; discriminate. }
  unfold parseMLResult, classifyPredictions.
  rewrite Hspam. cbn [bindC orUndefined].
  rewrite (isSpam_truthy _ Hp).
  rewrite Hscore. reflexivity.
Qed.

Lemma first_positive_class_wins_witness :
  parseMLResult (JArr [prediction "ham" 0.75; prediction "SPAM" 0.25;
                       prediction "phishing" 0.875])
  = Normal {| ml_score := 25; ml_confidence := 25; ml_label := "PHISHING" |}.
Proof.
  apply (@first_positive_class_wins
           [prediction "ham" 0.75; prediction "SPAM" 0.25; prediction "phishing" 0.875]
           [prediction "ham" 0.75] [prediction "phishing" 0.875]
           (prediction "SPAM" 0.25) 0.25).
  - reflexivity.
  - constructor; [reflexivity | constructor].
  - reflexivity.
  - reflexivity.
Defined.

(** A later positive-class prediction does not decide, and a malformed
    element before it stops the call. *)
Example later_positive_class_is_ignored :
  parseMLResult (JArr [prediction "spam" 0.125; prediction "phishing" 0.875])
  = Normal {| ml_score := 12.5; ml_confidence := 12.5; ml_label := "PHISHING" |} /\
  parseMLResult (JArr [JNull; prediction "spam" 0.875]) = Throw TypeError.
Proof. split; vm_compute; reflexivity. Qed.

Lemma wellFormed_pred (p : JsVal) (f : string -> bool) :
  wellFormedPrediction p ->
  exists b : bool,
    (label <- Js.get p "label" ;;
     if Js.truthy label then l <- Js.asString label ;; Normal (f l) else Normal false)%js
    = Normal b.
Proof.
  intros (props & l & s & -> & Hl & _). cbn [Js.get bindC]. rewrite Hl.
  destruct (Js.truthy (JStr l)); cbn; eauto.
Qed.

Lemma find_wellFormed (pred : JsVal -> Completion bool) (l : list JsVal) :
  (forall p, In p l -> exists b, pred p = Normal b) ->
  (Js.find pred l = Normal None) \/ (exists p, In p l /\ Js.find pred l = Normal (Some p)).
Proof.
  induction l as [|x l IH]; intros H; cbn [Js.find]; [auto|].
  destruct (H x (or_introl eq_refl)) as [b ->]. cbn [bindC].
  destruct b.
  - right. exists x. split; [left|]; reflexivity.
  - destruct IH as [IH | (p & Hin & IH)].
    + intros p Hp. apply H. right. exact Hp.
    + auto.
    + right. exists p. split; [right; exact Hin | exact IH].
Qed.

(** X11. On an answer whose predictions are all well formed - objects
    with a string label and a numeric score, in a flat or a once-nested
    array - [parseMLResult] neither throws nor leaves the embedding: it
    returns a result labelled PHISHING with the score equal to the
    confidence, or labelled SAFE with the score equal to 100 minus the
    confidence. *)
Theorem well_formed_answer_is_parsed (elems : list JsVal) :
  Forall wellFormedPrediction (predictionsOf elems) ->
  exists r : MLResult,
    parseMLResult (JArr elems) = Normal r /\
    ((ml_label r = "PHISHING" /\ ml_score r = ml_confidence r) \/
     (ml_label r = "SAFE" /\ ml_score r = (100 - ml_confidence r)%float)).
Proof.
  intros Hwf. rewrite Forall_forall in Hwf.
  assert (Hscore : forall p, In p (predictionsOf elems) ->
                     exists s, Js.get p "score" = Normal (JNum s) /\ Js.truthy p = true).
  { intros p Hp. destruct (Hwf p Hp) as (props & l & s & -> & _ & Hs).
    exists s. cbn. rewrite Hs. auto. }
  destruct elems as [|v l]; [eexists; split; [reflexivity | right; split; reflexivity]|].
  unfold parseMLResult, classifyPredictions.
  set (preds := predictionsOf (v :: l)) in *.
  destruct (@find_wellFormed isSpamPrediction preds) as [Hs | (p & Hp & Hs)].
  { intros p Hp. apply wellFormed_pred. apply Hwf. exact Hp. }
  - rewrite Hs. cbn [bindC orUndefined Js.truthy].
    destruct (@find_wellFormed isHamPrediction preds) as [Hh | (p & Hp & Hh)].
    { intros p Hp. apply wellFormed_pred. apply Hwf. exact Hp. }
    + rewrite Hh. cbn. eexists. split; [reflexivity | right; split; reflexivity].
    + rewrite Hh. cbn [bindC orUndefined].
      destruct (Hscore p Hp) as (s & Hg & Ht). rewrite Ht, Hg. cbn.
      eexists. split; [reflexivity | right; split; reflexivity].
  - rewrite Hs. cbn [bindC orUndefined].
    destruct (Hscore p Hp) as (s & Hg & Ht). rewrite Ht, Hg. cbn.
    eexists. split; [reflexivity | left; split; reflexivity].
Qed.

Lemma well_formed_answer_is_parsed_witness :
  Forall wellFormedPrediction
         (predictionsOf [JArr [prediction "LABEL_0" 0.75; prediction "LABEL_1" 0.25]]) /\
  exists r : MLResult,
    parseMLResult (JArr [JArr [prediction "LABEL_0" 0.75; prediction "LABEL_1" 0.25]])
    = Normal r.
Proof.
  assert (Hwf : Forall wellFormedPrediction
                  (predictionsOf [JArr [prediction "LABEL_0" 0.75; prediction "LABEL_1" 0.25]])).
  { cbn. repeat constructor; eexists; eexists; eexists;
      (split; [reflexivity | split; reflexivity]). }
  split; [exact Hwf|].
  destruct (well_formed_answer_is_parsed _ Hwf) as (r & Hr & _).
  exists r. exact Hr.
Defined.

(* ================================================================== *)
(** ** The number of matching rules and the score *)

Lemma brandPoints_cases (text senderStr : string) :
  brandPoints text senderStr = 0 \/ brandPoints text senderStr = 30.
Proof.
  unfold brandPoints.
  destruct (find _ brands); [|auto].
  destruct (Js.truthy _); [|auto].
  destruct (negb _); auto.
Qed.

Lemma rulePoints_hits (e : EmailInput) :
  rulePoints (textOf e) (senderOf e) = pointsOf (ruleHits e) rulePointsList.
Proof.
  unfold rulePoints, ruleHits, rulePointsList, rule. cbn [pointsOf].
  destruct (brandPoints_cases (textOf e) (senderOf e)) as [-> | ->]; cbn [Z.eqb Pos.eqb];
    repeat match goal with
           | |- context [if Re.test ?ic ?r ?s then ?p else 0] =>
               generalize (if Re.test ic r s then p else 0); intro
           end; lia.
Qed.

Lemma bandCheck_all (b1 b2 b3 b4 b5 b6 b7 b8 b9 b10 b11 : bool) :
  bandCheck [b1; b2; b3; b4; b5; b6; b7; b8; b9; b10; b11] = true.
Proof.
  destruct b1, b2, b3, b4, b5, b6, b7, b8, b9, b10, b11; vm_compute; reflexivity.
Qed.

Lemma bandCheck_email (e : EmailInput) : bandCheck (ruleHits e) = true.
Proof. unfold ruleHits. apply bandCheck_all. Qed.

Lemma bandCheck_spec (e : EmailInput) :
  let v := Z.min (rulePoints (textOf e) (senderOf e)) 100 in
  let c := hitCount e in
  (c = 0%nat <-> v = 0) /\
  ((c <= 1)%nat -> v <= 40) /\
  ((3 <= c)%nat -> 45 <= v) /\
  ((4 <= c)%nat -> 75 <= v).
Proof.
  intros v c. pose proof (bandCheck_email e) as H.
  unfold bandCheck in H. rewrite <- rulePoints_hits in H. fold v in H.
  unfold countTrue in H. fold (hitCount e) in H. fold c in H.
  rewrite !andb_true_iff in H. destruct H as [[[H0 H1] H3] H4].
  apply Bool.eqb_prop in H0.
  repeat split.
  - intros Hc. apply Z.eqb_eq. rewrite <- H0. apply Z.eqb_eq. lia.
  - intros Hv. apply Z.eqb_eq in Hv. rewrite <- H0 in Hv. apply Z.eqb_eq in Hv. lia.
  - intros Hc. destruct (Z.leb_spec (Z.of_nat c) 1); [apply Z.leb_le; exact H1 | lia].
  - intros Hc. destruct (Z.leb_spec 3 (Z.of_nat c)); [apply Z.leb_le; exact H3 | lia].
  - intros Hc. destruct (Z.leb_spec 4 (Z.of_nat c)); [apply Z.leb_le; exact H4 | lia].
Qed.

(** X12. The pattern score of an [EmailInput] is 0 exactly when none of
    the eleven rules matches. *)
Theorem zero_score_iff_no_rule (e : EmailInput) :
  getEnhancedFallbackScore (emailData_of e) = Normal 0 <-> hitCount e = 0%nat.
Proof.
  rewrite getEnhancedFallbackScore_email.
  destruct (bandCheck_spec e) as ([H1 H2] & _).
  split.
  - intros H. injection H as H. apply H2. exact H.
  - intros H. f_equal. apply H1. exact H.
Qed.

(** X13. The number of matching rules bounds the risk level the pattern
    score is mapped to: a single rule gives at most 40, so never [high];
    three rules give at least 45, so never [low]; four rules or more give
    at least 75, so always [high]. *)
Theorem rule_count_bounds_risk (e : EmailInput) :
  exists v : Z,
    getEnhancedFallbackScore (emailData_of e) = Normal v /\
    ((hitCount e <= 1)%nat -> v <= 40 /\ riskLevelOf (Js.Z2F v) <> high) /\
    ((3 <= hitCount e)%nat -> 45 <= v /\ riskLevelOf (Js.Z2F v) <> low) /\
    ((4 <= hitCount e)%nat -> 75 <= v /\ riskLevelOf (Js.Z2F v) = high).
Proof.
  eexists. split; [apply getEnhancedFallbackScore_email|].
  pose proof (rulePoints_range (textOf e) (senderOf e)) as Hr.
  destruct (bandCheck_spec e) as (_ & H1 & H3 & H4).
  set (v := Z.min (rulePoints (textOf e) (senderOf e)) 100) in *.
  assert (Hv : 0 <= v <= 100) by (subst v; lia).
  rewrite (riskLevelOf_int Hv). unfold riskBand.
  split; [|split]; intros Hc;
    [specialize (H1 Hc) | specialize (H3 Hc) | specialize (H4 Hc)];
    (split; [lia|]);
    destruct (Z.leb_spec 65 v); try lia; try discriminate; try reflexivity;
    destruct (Z.leb_spec 35 v); try lia; discriminate.
Qed.

(* ================================================================== *)
(** ** Letter case *)

Lemma toLowerCase_space : Str.toLowerCase " " = " ".
Proof. reflexivity. Qed.

Lemma textOf_lower (e : EmailInput) :
  textOf e
  = (Str.toLowerCase (orEmpty (sender e)) ++ " " ++
     Str.toLowerCase (orEmpty (subject e)) ++ " " ++
     Str.toLowerCase (orEmpty (snippet e)))%string.
Proof.
  unfold textOf. rewrite !toLowerCase_app, toLowerCase_space. reflexivity.
Qed.

(** X14. The pattern score and the reasons do not depend on the letter
    case of the subject and of the snippet: two records with the same
    sender whose subjects, and whose snippets, differ in case only get the
    same score and the same reasons. *)
Theorem subject_and_snippet_case_is_ignored (e e' : EmailInput) :
  orEmpty (sender e) = orEmpty (sender e') ->
  Str.toLowerCase (orEmpty (subject e)) = Str.toLowerCase (orEmpty (subject e')) ->
  Str.toLowerCase (orEmpty (snippet e)) = Str.toLowerCase (orEmpty (snippet e')) ->
  getEnhancedFallbackScore (emailData_of e) = getEnhancedFallbackScore (emailData_of e') /\
  forall (score : float) (usedML : bool),
    generateReasons score (emailData_of e) usedML
    = generateReasons score (emailData_of e') usedML.
Proof.
  intros Hs Hu Hn.
  assert (Ht : textOf e = textOf e').
  { rewrite !textOf_lower, Hs, Hu, Hn. reflexivity. }
  assert (Hse : senderOf e = senderOf e') by exact Hs.
  split.
  - rewrite !getEnhancedFallbackScore_email, Ht, Hse. reflexivity.
  - intros score usedML. rewrite !generateReasons_email, Ht, Hse. reflexivity.
Qed.

Lemma subject_and_snippet_case_is_ignored_witness :
  getEnhancedFallbackScore
    (emailData_of (mkEmail (Some "a@b.com") (Some "URGENT ACTION") (Some "Verify Your Account")))
  = getEnhancedFallbackScore
      (emailData_of (mkEmail (Some "a@b.com") (Some "urgent action") (Some "verify your account"))).
Proof.
  apply (@subject_and_snippet_case_is_ignored
           (mkEmail (Some "a@b.com") (Some "URGENT ACTION") (Some "Verify Your Account"))
           (mkEmail (Some "a@b.com") (Some "urgent action") (Some "verify your account")));
    reflexivity.
Defined.

(* ================================================================== *)
(** ** The list of reasons *)

Lemma nodupb_sound (l : list string) : nodupb l = true -> NoDup l.
Proof.
  induction l as [|x l IH]; cbn [nodupb]; intros H; constructor.
  - apply andb_true_iff in H. destruct H as [H _]. apply negb_true_iff in H.
    intros Hin. assert (existsb (String.eqb x) l = true); [|congruence].
    apply existsb_exists. exists x. split; [exact Hin | apply String.eqb_refl].
  - apply IH. apply andb_true_iff in H. tauto.
Qed.

(** X15. The reasons [generateReasons] returns for an [EmailInput] are
    pairwise distinct. *)
Theorem reasons_are_distinct (score : float) (e : EmailInput) (usedML : bool) :
  exists rs : list string,
    generateReasons score (emailData_of e) usedML = Normal rs /\ NoDup rs.
Proof.
  eexists. split; [apply generateReasons_email|].
  unfold reasonsBeforeSlice, signalReasons, signals, modeReason. cbn [flat_map].
  destruct usedML; [destruct (Js.geb score 65); [|destruct (Js.geb score 35)]|];
    case_tests; apply nodupb_sound; vm_compute; reflexivity.
Qed.

(** X16. Only the first reason depends on the score and on the mode: for
    one [EmailInput], the reasons after the first are the same for every
    score and for both modes. *)
Theorem content_reasons_ignore_score (e : EmailInput) (score1 score2 : float)
    (usedML1 usedML2 : bool) :
  exists rs1 rs2 : list string,
    generateReasons score1 (emailData_of e) usedML1 = Normal rs1 /\
    generateReasons score2 (emailData_of e) usedML2 = Normal rs2 /\
    tl rs1 = tl rs2.
Proof.
  do 2 eexists. rewrite !generateReasons_email.
  split; [reflexivity|]. split; [reflexivity|].
  unfold reasonsBeforeSlice.
  destruct (signalReasons (textOf e) (senderOf e)) as [|s sigs]; reflexivity.
Qed.

(* ================================================================== *)
(** ** The entry point: state, traffic and results *)

Lemma analyzeEmailBody_email (fuel : nat) (net : Network) (e : EmailInput)
    (d : Detector) (log : list Request) :
  analyzeEmailBody fuel net (emailData_of e) d log
  = match chooseScore fuel net (emailData_of e) (emailTextOfInput e) d log with
    | None => None
    | Some (c, d', log') => Some (bindC c (finishAnalysis (emailData_of e)), d', log')
    end.
Proof.
  unfold analyzeEmailBody. rewrite destructure_email.
  cbn [bindC emailTextOf Js.ToString subjectPreview Js.asString].
  change ("From: " ++ orEmpty (sender e) ++ newline ++ "Subject: " ++ orEmpty (subject e)
          ++ newline ++ orEmpty (snippet e))%string with (emailTextOfInput e).
  destruct (chooseScore fuel net (emailData_of e) (emailTextOfInput e) d log)
    as [[[[[[s c] u]|ex|] d'] log']|]; try reflexivity.
  cbn [bindC]. unfold finishAnalysis.
  destruct (assess s c u) as [[rl conf] icon]. reflexivity.
Qed.

Lemma finishAnalysis_email (e : EmailInput) (s c : float) (u : bool) :
  finishAnalysis (emailData_of e) (s, c, u)
  = bindC (snd (fst (assess s c u)))
          (fun t => Normal {| score := Num.round s;
                              riskLevel := riskLevelOf s;
                              confidence := t;
                              details := {| mlScore := Num.round s;
                                            mlConfidence := Num.round c;
                                            usedAI := u |};
                              reasons := firstn 5 (reasonsBeforeSlice s u (textOf e) (senderOf e)) |}).
Proof.
  unfold finishAnalysis. pose proof (assess_riskLevel s c u) as Hr.
  destruct (assess s c u) as [[rl conf] icon]. cbn [fst snd] in *. subst rl.
  destruct conf as [t|ex|]; cbn [bindC]; try reflexivity.
  rewrite generateReasons_email. reflexivity.
Qed.


Lemma fallbackScore_email (e : EmailInput) :
  fallbackScore (emailData_of e)
  = Normal (Js.Z2F (Z.min (rulePoints (textOf e) (senderOf e)) 100), 0%float, false).
Proof. unfold fallbackScore. rewrite getEnhancedFallbackScore_email. reflexivity. Qed.

Lemma chooseScore_state (fuel : nat) (net : Network) (emailData : JsVal) (text : string)
    (d d' : Detector) (log log' : list Request) (c : Completion (float * float * bool)) :
  chooseScore fuel net emailData text d log = Some (c, d', log') ->
  (remoteEnabled d = false /\ d' = d /\ log' = log /\ c = fallbackScore emailData) \/
  (remoteEnabled d = true /\
   exists c0, getMLPrediction fuel net text d log = Some (c0, d', log') /\
     match c0 with
     | Normal r => c = Normal (ml_score r, ml_confidence r, true)
     | Throw _ => c = fallbackScore emailData
     | Outside => c = Outside
     end).
Proof.
  unfold chooseScore. destruct (remoteEnabled d).
  - destruct (getMLPrediction fuel net text d log) as [[[[r|ex|] d1] l1]|] eqn:Hg;
      [| | |discriminate]; intros H; injection H as <- <- <-; right;
      (split; [reflexivity|]); eexists; (split; [reflexivity|]); reflexivity.
  - intros H. injection H as <- <- <-. left. auto.
Qed.

Lemma analyzeEmail_state (fuel : nat) (net : Network) (emailData : JsVal)
    (d d' : Detector) (log log' : list Request) (c : Completion Analysis) :
  analyzeEmail fuel net emailData d log = Some (c, d', log') ->
  (d' = d /\ log' = log) \/
  (remoteEnabled d = true /\
   exists text c0, getMLPrediction fuel net text d log = Some (c0, d', log')).
Proof.
  unfold analyzeEmail.
  assert (Hb : forall cb, analyzeEmailBody fuel net emailData d log = Some (cb, d', log') ->
                 (d' = d /\ log' = log) \/
                 (remoteEnabled d = true /\
                  exists text c0, getMLPrediction fuel net text d log = Some (c0, d', log'))).
  { unfold analyzeEmailBody. intros cb.
    destruct (bindC (Js.destructure emailData) _) as [text|ex|];
      [|intros H; injection H as _ <- <-; auto | intros H; injection H as _ <- <-; auto].
    destruct (chooseScore fuel net emailData text d log) as [[[cs d1] l1]|] eqn:Hc;
      [|discriminate].
    intros H.
    assert (d1 = d' /\ l1 = log') as [-> ->].
    { destruct cs as [[[s c1] u]|ex|]; [destruct (assess s c1 u) as [[rl conf] icon]| |];
        injection H as _ <- <-; auto. }
    apply chooseScore_state in Hc.
    destruct Hc as [(_ & -> & -> & _) | (Hr & c0 & Hg & _)]; [auto|].
    right. split; [exact Hr|]. eauto. }
  destruct (analyzeEmailBody fuel net emailData d log) as [[[[a|ex|] d1] l1]|] eqn:Hbody;
    [| | |discriminate]; intros H; injection H as _ <- <-; eapply Hb; reflexivity.
Qed.

(** X8. A call of [analyzeEmail] whose conversions stay inside the
    embedding leaves the model list, the key and [modelLoaded] as they
    were - a failed remote call does not switch the remote mode off - and
    keeps a valid index valid.  With the remote mode off it sends nothing
    and changes nothing; every request it sends carries the key and at most
    500 characters. *)
Theorem analyzeEmail_frame (fuel : nat) (net : Network) (emailData : JsVal)
    (d d' : Detector) (log log' : list Request) (c : Completion Analysis) :
  analyzeEmail fuel net emailData d log = Some (c, d', log') ->
  c <> Outside ->
  models d' = models d /\ apiKey d' = apiKey d /\ modelLoaded d' = modelLoaded d /\
  remoteEnabled d' = remoteEnabled d /\
  (validIndex d -> validIndex d') /\
  (remoteEnabled d = false -> d' = d /\ log' = log) /\
  exists reqs : list Request,
    log' = log ++ reqs /\
    forall r, In r reqs ->
      (String.length (req_inputs r) <= 500)%nat /\ req_authorization r = bearer (apiKey d).
Proof.
  intros H _. apply analyzeEmail_state in H.
  destruct H as [[-> ->] | (Hr & text & c0 & Hg)].
  - repeat split; auto. exists []. rewrite app_nil_r.
    repeat split; destruct H.
  - pose proof (call_shape _ _ _ _ _ Hg) as Hs. cbn in Hs.
    destruct Hs as (k & Hlog & Hk & H1 & Hm & Hkey & Hld & Hcase).
    repeat split; try assumption.
    + unfold remoteEnabled. rewrite Hkey, Hld. reflexivity.
    + unfold validIndex. intros Hv. rewrite Hm. specialize (H1 Hv).
      destruct Hcase as [(_ & _ & _ & ->) | (_ & _ & ->)]; lia.
    + congruence.
    + congruence.
    + exists (requestsFrom d text k). split; [exact Hlog|].
      intros r Hin. apply requestsFrom_In in Hin. destruct Hin as (m & _ & ->).
      split; [apply substring0_length | reflexivity].
Qed.

Lemma analyzeEmail_frame_witness :
  analyzeEmail 3 allGone JNull (detectorAt 0) [] = Some (Normal getErrorResult, detectorAt 0, []) /\
  modelLoaded (detectorAt 0) = modelLoaded (detectorAt 0).
Proof.
  split; [reflexivity|].
  destruct (@analyzeEmail_frame 3 allGone JNull (detectorAt 0) (detectorAt 0) [] []
              (Normal getErrorResult) eq_refl ltac:(discriminate)) as (_ & _ & H & _).
  exact H.
Defined.

Lemma assess_local_text (s c : float) :
  exists t : string,
    snd (fst (assess s c false)) = Normal t /\ In t localConfidenceTexts.
Proof.
  unfold assess, localConfidenceTexts.
  destruct (Js.geb s 65); [|destruct (Js.geb s 35)]; eexists; cbn; split;
    try reflexivity; tauto.
Qed.


(** X17. With the remote mode off, [analyzeEmail] on an [EmailInput]
    sends nothing and returns the pattern score [v], an integer between 0
    and 100, as score and as [mlScore], with the risk level of the band of
    [v], one of the three fixed confidence texts of the local mode, a
    confidence of 0, [usedAI] false, and the reasons [generateReasons]
    gives for [v] in the local mode. *)
Theorem local_analysis (fuel : nat) (net : Network) (e : EmailInput)
    (d : Detector) (log : list Request) :
  remoteEnabled d = false ->
  exists (a : Analysis) (v : Z),
    analyzeEmail fuel net (emailData_of e) d log = Some (Normal a, d, log) /\
    getEnhancedFallbackScore (emailData_of e) = Normal v /\
    0 <= v <= 100 /\
    score a = Js.Z2F v /\
    riskLevel a = riskBand v /\
    In (confidence a) localConfidenceTexts /\
    details a = {| mlScore := Js.Z2F v; mlConfidence := 0; usedAI := false |} /\
    generateReasons (Js.Z2F v) (emailData_of e) false = Normal (reasons a).
Proof.
  intros Hd.
  set (v := Z.min (rulePoints (textOf e) (senderOf e)) 100).
  assert (Hv : 0 <= v <= 100).
  { pose proof (rulePoints_range (textOf e) (senderOf e)). subst v. lia. }
  unfold analyzeEmail. rewrite analyzeEmailBody_email.
  unfold chooseScore. rewrite Hd, fallbackScore_email. fold v.
  cbn [bindC]. rewrite finishAnalysis_email.
  destruct (assess_local_text (Js.Z2F v) 0) as (t & Ht & Hin). rewrite Ht. cbn [bindC].
  eexists. exists v.
  split; [reflexivity|]. split; [apply getEnhancedFallbackScore_email|].
  cbn [score riskLevel confidence details reasons].
  rewrite (round_int Hv), (riskLevelOf_int Hv), generateReasons_email.
  repeat split; try assumption; try lia.
Qed.

Lemma local_analysis_witness :
  remoteEnabled newDetector = false /\
  exists (a : Analysis) (v : Z),
    analyzeEmail 0 allGone (emailData_of everyRuleEmail) newDetector []
    = Some (Normal a, newDetector, []) /\ score a = Js.Z2F v.
Proof.
  split; [reflexivity|].
  destruct (@local_analysis 0 allGone everyRuleEmail newDetector [] eq_refl)
    as (a & v & Ha & _ & _ & Hs & _).
  exists a, v. split; assumption.
Defined.

(** X18. When the remote call of [analyzeEmail] throws - exhaustion, a
    status other than 2xx, no response, a body that cannot be parsed - the
    result is the one the local mode gives for the same [EmailInput]: the
    failure is not visible in the analysis, only in the detector and in the
    requests sent. *)
Theorem remote_failure_gives_local_result (fuel : nat) (net : Network) (e : EmailInput)
    (d d' : Detector) (log log' : list Request) (ex : Exn) :
  remoteEnabled d = true ->
  getMLPrediction fuel net (emailTextOfInput e) d log = Some (Throw ex, d', log') ->
  exists a : Analysis,
    analyzeEmail fuel net (emailData_of e) d log = Some (Normal a, d', log') /\
    analyzeEmail fuel net (emailData_of e) (localOnly d) log
    = Some (Normal a, localOnly d, log) /\
    usedAI (details a) = false.
Proof.
  intros Hd Hg.
  assert (Hl : remoteEnabled (localOnly d) = false) by reflexivity.
  unfold analyzeEmail. rewrite !analyzeEmailBody_email.
  unfold chooseScore. rewrite Hd, Hl, Hg, fallbackScore_email.
  cbn [bindC]. rewrite finishAnalysis_email.
  destruct (assess_local_text (Js.Z2F (Z.min (rulePoints (textOf e) (senderOf e)) 100)) 0)
    as (t & Ht & _).
  rewrite Ht. cbn [bindC]. eexists. repeat split.
Qed.

Lemma remote_failure_gives_local_result_witness :
  remoteEnabled (detectorAt 0) = true /\
  exists a : Analysis,
    analyzeEmail 3 allBusy (emailData_of everyRuleEmail) (detectorAt 0) []
    = Some (Normal a, detectorAt 0,
            [requestFor (detectorAt 0)
               {| name := "Email Spam Detector";
                  url := "https://api-inference.huggingface.co/models/mshenoda/roberta-spam";
                  type := "classification" |} (emailTextOfInput everyRuleEmail)]) /\
    usedAI (details a) = false.
Proof.
  split; [reflexivity|].
  destruct (@remote_failure_gives_local_result 3 allBusy everyRuleEmail
              (detectorAt 0) (detectorAt 0) []
              [requestFor (detectorAt 0)
                 {| name := "Email Spam Detector";
                    url := "https://api-inference.huggingface.co/models/mshenoda/roberta-spam";
                    type := "classification" |} (emailTextOfInput everyRuleEmail)]
              (Error "API 503") eq_refl ltac:(vm_compute; reflexivity))
    as (a & Ha & _ & Hu).
  exists a. split; assumption.
Defined.

(** X19. [usedAI] is truthful: a result of [analyzeEmail], on any
    argument, says [usedAI] only if the remote mode is on and the remote
    call of this very call returned a prediction; the score and [mlScore]
    are then that prediction's score rounded, [mlConfidence] its confidence
    rounded, and the risk level is the band of the score before rounding. *)
Theorem usedAI_is_truthful (fuel : nat) (net : Network) (emailData : JsVal)
    (d d' : Detector) (log log' : list Request) (a : Analysis) :
  analyzeEmail fuel net emailData d log = Some (Normal a, d', log') ->
  usedAI (details a) = true ->
  remoteEnabled d = true /\
  exists (text : string) (r : MLResult),
    getMLPrediction fuel net text d log = Some (Normal r, d', log') /\
    score a = Num.round (ml_score r) /\
    mlScore (details a) = Num.round (ml_score r) /\
    mlConfidence (details a) = Num.round (ml_confidence r) /\
    riskLevel a = riskLevelOf (ml_score r).
Proof.
  unfold analyzeEmail. intros H Hu.
  destruct (analyzeEmailBody fuel net emailData d log) as [[[[a0|ex|] d0] l0]|] eqn:Hb;
    [| |discriminate|discriminate].
  2:{ injection H as <- _ _. discriminate. }
  injection H as -> -> ->.
  unfold analyzeEmailBody in Hb.
  destruct (bindC (Js.destructure emailData) _) as [text|ex|]; [|discriminate|discriminate].
  destruct (chooseScore fuel net emailData text d log) as [[[cs d1] l1]|] eqn:Hc;
    [|discriminate].
  destruct cs as [[[s c1] u]|ex|]; [|discriminate|discriminate].
  pose proof (assess_riskLevel s c1 u) as Hr.
  destruct (assess s c1 u) as [[rl conf] icon]. cbn [fst snd] in Hr. subst rl.
  destruct conf as [t|ex|]; cbn [bindC] in Hb; [|discriminate|discriminate].
  destruct (generateReasons s emailData u) as [rs|ex|]; cbn [bindC] in Hb;
    [|discriminate|discriminate].
  injection Hb as <- <- <-. cbn in Hu. subst u.
  apply chooseScore_state in Hc.
  destruct Hc as [(_ & _ & _ & Hf) | (Hre & c0 & Hg & Hc0)].
  - exfalso. unfold fallbackScore in Hf.
    destruct (getEnhancedFallbackScore emailData); cbn in Hf; discriminate.
  - split; [exact Hre|].
    destruct c0 as [r|ex|]; [| |discriminate].
    + injection Hc0 as -> ->. exists text, r. repeat split. exact Hg.
    + exfalso. unfold fallbackScore in Hc0.
      destruct (getEnhancedFallbackScore emailData); cbn in Hc0; discriminate.
Qed.

Lemma usedAI_is_truthful_witness :
  analyzeEmail 3 halfPhishing (emailData_of everyRuleEmail) (detectorAt 0) []
  = Some (Normal halfPhishingAnalysis, detectorAt 0,
          [requestFor (detectorAt 0)
             {| name := "Email Spam Detector";
                url := "https://api-inference.huggingface.co/models/mshenoda/roberta-spam";
                type := "classification" |} (emailTextOfInput everyRuleEmail)]) /\
  usedAI (details halfPhishingAnalysis) = true /\
  remoteEnabled (detectorAt 0) = true.
Proof.
  assert (H : analyzeEmail 3 halfPhishing (emailData_of everyRuleEmail) (detectorAt 0) []
              = Some (Normal halfPhishingAnalysis, detectorAt 0,
                      [requestFor (detectorAt 0)
                         {| name := "Email Spam Detector";
                            url := "https://api-inference.huggingface.co/models/mshenoda/roberta-spam";
                            type := "classification" |} (emailTextOfInput everyRuleEmail)]))
    by (vm_compute; reflexivity).
  split; [exact H|]. split; [reflexivity|].
  exact (proj1 (usedAI_is_truthful _ _ _ _ _ H eq_refl)).
Defined.


(* ================================================================== *)
(** ** The reported score and the risk level *)







(* ================================================================== *)
(** ** From start-up to the first request *)

(** X21. After a [loadModel] that ends with [modelLoaded] set, the first
    request of the next [getMLPrediction] goes to the first configured
    model whose probe succeeded, and it carries the stored key as bearer
    token. *)
Theorem startup_routes_first_request (stored : JsVal) (pnet : ProbeNetwork)
    (d d' : Detector) (plog plog' : list ProbeRequest) :
  loadModel stored pnet d plog = (Normal tt, d', plog') ->
  modelLoaded d' = true ->
  exists (k : string) (j : nat) (m : Model),
    stored = JStr k /\
    nth_error (models d) j = Some m /\
    notOk pnet plog (probesFor d' (firstn j (models d))) /\
    isOkOutcome (pnet (plog ++ probesFor d' (firstn j (models d))) (probeFor d' m)) = true /\
    forall (fuel : nat) (net : Network) (text : string) (log log' : list Request)
           (c : Completion MLResult) (d'' : Detector),
      getMLPrediction fuel net text d' log = Some (c, d'', log') ->
      exists rest : list Request,
        log' = log ++ {| req_url := url m;
                         req_authorization := ("Bearer " ++ k)%string;
                         req_inputs := Str.substring0 500 text;
                         req_wait_for_model := true;
                         req_use_cache := false |} :: rest.
Proof.
  unfold loadModel. intros H Hl.
  destruct (loadApiKey_cases stored d)
    as [[Ht Hk] | [(k & Hs & Hne & Hk) | (Ht & Hns & Hk)]]; rewrite Hk in H.
  - cbn in H. injection H as <- <-. discriminate.
  - rewrite (@keyMissing_setKey d k Hne) in H.
    pose proof (testModels_spec pnet (setKey d (Some k)) (models d) 0 plog) as Hs'.
    unfold testAPIConnection in H. cbn [models setKey] in H.
    destruct (testModels pnet (setKey d (Some k)) 0 (models d) plog) as [[[u|e|] d2] log2].
    + injection H as <- <-.
      destruct Hs' as (j & m & Hj & Hd & Hlog & Hno & Hok). subst d2.
      exists k, j, m. repeat split; try assumption.
      intros fuel net text log log' c d'' Hg.
      pose proof (call_shape _ _ _ _ _ Hg) as Hsh. cbn in Hsh.
      destruct Hsh as (n & Hlog' & _ & H1 & _).
      assert (Hlt : (j < List.length (models d))%nat) by (apply nth_error_Some; congruence).
      specialize (H1 Hlt). destruct n as [|n]; [lia|].
      rewrite (@requestsFrom_S _ text n m) in Hlog' by exact Hj.
      eexists. exact Hlog'.
    + injection H as <- <-. discriminate.
    + destruct Hs'.
  - discriminate.
Qed.

Lemma startup_routes_first_request_witness :
  loadModel (JStr "hf_key") secondAnswers newDetector []
  = (Normal tt, detectorAt 1, probesFor (detectorAt 0) configuredModels) /\
  modelLoaded (detectorAt 1) = true /\
  exists (k : string) (j : nat) (m : Model),
    JStr "hf_key" = JStr k /\ nth_error configuredModels j = Some m.
Proof.
  split; [reflexivity|]. split; [reflexivity|].
  destruct (@startup_routes_first_request (JStr "hf_key") secondAnswers newDetector
              (detectorAt 1) [] (probesFor (detectorAt 0) configuredModels)
              eq_refl eq_refl) as (k & j & m & Hk & Hj & _).
  exists k, j, m. split; assumption.
Defined.

